(** * builder.py: the distribution registry, the context builder and the
      template renderer

    A shallow embedding of [builder.py].  Python values are a small sum
    type, exceptions are data, the class-level registry is an
    insertion-ordered dictionary, keyword arguments are finite maps, and the
    file system together with standard output is an explicit world that the
    rendering code threads through.

    Conventions.
    - Text is a sequence of ASCII characters (Rocq's [string]); characters
      outside ASCII are not modelled.
    - The world's file map is keyed by the path strings the program builds,
      read relative to the project directory: the process is taken to run
      there, so that [with PROJECT_DIR:] changes nothing.
    - The external collaborators are outside the embedding: docker and the
      QEMU set-up are parameters of [build_host], [build_client] and
      [build_all]; [test], which only drives docker-compose, is left out. *)

From Stdlib Require Import Ascii String ZArith NArith Lia.
From stdpp Require Import gmap strings list fin_maps pretty.

Open Scope string_scope.

(* ===================================================================== *)
(** ** Python values and exceptions *)
(* ===================================================================== *)

(** The objects that reach a template context: [str] (and [path.Path], which
    subclasses [str]), [int] and [None]. *)
Inductive value : Type :=
  | VStr (s : string)
  | VInt (z : Z)
  | VNone.

#[global] Instance value_eq_dec : EqDecision value.
Proof. solve_decision. Defined.

(** [bool(v)]. *)
Definition truthy (v : value) : bool :=
  match v with
  | VStr s => negb (String.eqb s "")
  | VInt z => negb (Z.eqb z 0)
  | VNone => false
  end.

(** [format(v, '')], which is [str(v)] for these types. *)
Definition str_of (v : value) : string :=
  match v with
  | VStr s => s
  | VInt z => pretty z
  | VNone => "None"
  end.

Inductive exn : Type :=
  | KeyError (key : value)
  | IndexError (msg : string)
  | ValueError (msg : string)
  | TypeError (msg : string)
  | FileNotFoundError (path : string)
  | FileExistsError (path : string)
  | NotADirectoryError (path : string)
  | IsADirectoryError (path : string)
  | RecursionError
  | SystemExit (status : Z)
  (** Not a Python exception: the template uses a replacement-field feature
      (conversion, format specification, attribute or index access) that
      [str_format] below does not cover. *)
  | Unmodelled (feature : string).

#[global] Instance exn_eq_dec : EqDecision exn.
Proof. solve_decision. Defined.

(** A computation that returns or raises. *)
Inductive result (A : Type) : Type :=
  | Ok (a : A)
  | Raise (e : exn).
Arguments Ok {A} a.
Arguments Raise {A} e.

#[global] Instance result_ret : MRet result := @Ok.
#[global] Instance result_bind : MBind result := λ A B f m,
  match m with Ok a => f a | Raise e => Raise e end.
#[global] Instance result_fmap : FMap result := λ A B f m,
  match m with Ok a => Ok (f a) | Raise e => Raise e end.

Definition raises {A} (m : result A) : Prop := ∃ e, m = Raise e.

(* ===================================================================== *)
(** ** Strings: [slugify], [str.join], [os.path.join] *)
(* ===================================================================== *)

Definition in_range (lo hi : N) (c : ascii) : bool :=
  let n := N_of_ascii c in (lo <=? n)%N && (n <=? hi)%N.

(** [\w] on ASCII: letters, digits and the underscore. *)
Definition is_word_char (c : ascii) : bool :=
  in_range 48 57 c || in_range 65 90 c || in_range 97 122 c
  || Ascii.eqb c "_"%char.

Definition lower_char (c : ascii) : ascii :=
  if in_range 65 90 c then ascii_of_N (N_of_ascii c + 32) else c.

Fixpoint string_map (f : ascii → ascii) (s : string) : string :=
  match s with
  | EmptyString => EmptyString
  | String c r => String (f c) (string_map f r)
  end.

(** [re.sub(r'[^\w]', '-', string)]. *)
Definition sub_non_word (s : string) : string :=
  string_map (λ c, if is_word_char c then c else "-"%char) s.

(** [str.lower]. *)
Definition lower (s : string) : string := string_map lower_char s.

Definition slugify (s : string) : string := lower (sub_non_word s).

(** [sep.join(ls)]. *)
Definition join (sep : string) (ls : list string) : string :=
  String.concat sep ls.

Fixpoint ends_with_slash (s : string) : bool :=
  match s with
  | EmptyString => false
  | String c EmptyString => Ascii.eqb c "/"%char
  | String _ r => ends_with_slash r
  end.

Definition starts_with_slash (s : string) : bool :=
  match s with
  | String c _ => Ascii.eqb c "/"%char
  | EmptyString => false
  end.

(** [posixpath.join(a, b)], the [/] operator of [path.Path]. *)
Definition path_join (a b : string) : string :=
  if starts_with_slash b then b
  else if String.eqb a "" || ends_with_slash a then a +:+ b
  else a +:+ "/" +:+ b.

Infix "//" := path_join (at level 40, left associativity).

(** [needle in haystack] for strings. *)
Definition contains (haystack needle : string) : Prop :=
  ∃ pre post, haystack = pre +:+ needle +:+ post.

(* ===================================================================== *)
(** ** Dictionaries *)
(* ===================================================================== *)

(** Keyword arguments and template contexts: [dict] with [str] keys, where
    only lookups matter. *)
Abbreviation strdict := (gmap string value).

(** [d.get(k)]. *)
Definition dict_get (d : strdict) (k : string) : value :=
  default VNone (d !! k).

(** [d[k]] on a table whose keys are strings: any other key, and any string
    that is not a key, raises [KeyError]. *)
Definition getitem {V} (d : gmap string V) (k : value) : result V :=
  match k with
  | VStr s =>
      match d !! s with
      | Some v => Ok v
      | None => Raise (KeyError k)
      end
  | _ => Raise (KeyError k)
  end.

(** [f(k=v, **kwargs)]: Python refuses the call when [kwargs] already binds
    [k]. *)
Definition call_kw (k : string) (v : value) (kwargs : strdict)
  : result strdict :=
  match kwargs !! k with
  | Some _ =>
      Raise (TypeError ("got multiple values for keyword argument '" +:+ k +:+ "'"))
  | None => Ok (<[k := v]> kwargs)
  end.

(** [Distro.registry]: a [dict] whose insertion order is observable through
    [keys()] and [values()], so an association list kept without repeated
    keys by [odict_set]. *)
Section odict.
Context {V : Type}.

Definition odict : Type := list (string * V).

Fixpoint odict_lookup (d : odict) (k : string) : option V :=
  match d with
  | [] => None
  | (k', v) :: r => if decide (k' = k) then Some v else odict_lookup r k
  end.

(** [d[k] = v]: an existing key keeps its position, a new key goes last. *)
Fixpoint odict_set (d : odict) (k : string) (v : V) : odict :=
  match d with
  | [] => [(k, v)]
  | (k', v') :: r =>
      if decide (k' = k) then (k, v) :: r else (k', v') :: odict_set r k v
  end.

Definition odict_keys (d : odict) : list string := d.*1.
Definition odict_values (d : odict) : list V := d.*2.
End odict.
Arguments odict V : clear implicits.

(* ===================================================================== *)
(** ** The distribution classes and their tables *)
(* ===================================================================== *)

(** The two concrete subclasses of the abstract class [Distro]. *)
Inductive family : Type := DebianLike | ArchLinuxLike.

#[global] Instance family_eq_dec : EqDecision family.
Proof. solve_decision. Defined.

(** An instance: its class and the [name] set by [__init__]. *)
Record Distro : Type := mkDistro { cls : family; name : string }.

#[global] Instance Distro_eq_dec : EqDecision Distro.
Proof. solve_decision. Defined.

Definition template_path (c : family) : string :=
  match c with
  | DebianLike => "debian-like"
  | ArchLinuxLike => "archlinux-like"
  end.

Definition host_archs (c : family) : list string :=
  match c with
  | DebianLike => ["amd64"; "i386"; "arm32v7"; "arm64v8"; "ppc64le"; "s390x"]
  | ArchLinuxLike => ["amd64"]
  end.

Definition client_archs (c : family) : list string :=
  match c with
  | DebianLike => ["amd64"; "i386"; "arm32v7"; "arm64v8"; "ppc64le"; "s390x"]
  | ArchLinuxLike => ["amd64"; "arm32v5"; "arm32v6"; "arm32v7"; "arm64v8"]
  end.

Definition compilers_by_host_arch (c : family) : gmap string (list string) :=
  match c with
  | DebianLike => list_to_map
      [ ("amd64", ["amd64"; "i386"; "arm32v7"; "arm64v8"; "ppc64le"; "s390x"]);
        ("i386", ["amd64"; "i386"; "arm64v8"; "ppc64le"]);
        ("arm32v7", ["arm32v7"]);
        ("arm64v8", ["amd64"; "i386"; "arm64v8"]);
        ("ppc64le", ["amd64"; "i386"; "arm64v8"; "ppc64le"]);
        ("s390x", ["s390x"]) ]
  | ArchLinuxLike => list_to_map
      [ ("amd64", ["amd64"; "arm32v5"; "arm32v6"; "arm32v7"; "arm64v8"]) ]
  end.

Definition ports_by_arch (c : family) : gmap string Z :=
  match c with
  | DebianLike => list_to_map
      [ ("i386", 3603); ("amd64", 3604); ("arm32v7", 3607);
        ("arm64v8", 3608); ("s390x", 3609); ("ppc64le", 3610) ]%Z
  | ArchLinuxLike => list_to_map
      [ ("amd64", 3704); ("arm32v5", 3705); ("arm32v6", 3706);
        ("arm32v7", 3707); ("arm64v8", 3708) ]%Z
  end.

Definition toolchains_by_arch (c : family) : gmap string string :=
  match c with
  | DebianLike => list_to_map
      [ ("amd64", "x86_64-linux-gnu");
        ("i386", "i686-linux-gnu");
        ("ppc64le", "powerpc64le-linux-gnu");
        ("s390x", "s390x-linux-gnu");
        ("arm32v7", "arm-linux-gnueabihf");
        ("arm64v8", "aarch64-linux-gnu") ]
  | ArchLinuxLike => list_to_map
      [ ("arm32v5", "/toolchains/x-tools/arm-unknown-linux-gnueabi");
        ("arm32v6", "/toolchains/x-tools6h/arm-unknown-linux-gnueabihf");
        ("arm32v7", "/toolchains/x-tools7h/arm-unknown-linux-gnueabihf");
        ("arm64v8", "/toolchains/x-tools8/aarch64-unknown-linux-gnu") ]
  end.

(** [DebianLike.packages_by_arch]. *)
Definition packages_by_arch : gmap string string := list_to_map
  [ ("amd64", "gcc-x86-64-linux-gnu g++-x86-64-linux-gnu binutils-x86-64-linux-gnu");
    ("i386", "gcc-i686-linux-gnu g++-i686-linux-gnu binutils-i686-linux-gnu");
    ("arm32v7", "gcc-arm-linux-gnueabihf g++-arm-linux-gnueabihf binutils-arm-linux-gnueabihf");
    ("arm64v8", "gcc-aarch64-linux-gnu g++-aarch64-linux-gnu binutils-aarch64-linux-gnu");
    ("ppc64le", "gcc-powerpc64le-linux-gnu g++-powerpc64le-linux-gnu binutils-powerpc64le-linux-gnu");
    ("s390x", "gcc-s390x-linux-gnu g++-s390x-linux-gnu binutils-s390x-linux-gnu") ].

(** [DebianLike.flags_by_arch]. *)
Definition flags_by_arch : gmap string string := list_to_map
  [ ("amd64", "START_DISTCC_X86_64_LINUX_GNU");
    ("i386", "START_DISTCC_I686_LINUX_GNU");
    ("ppc64le", "START_DISTCC_PPC64LE_LINUX_GNU");
    ("s390x", "START_DISTCC_S390X_LINUX_GNU");
    ("arm32v7", "START_DISTCC_ARM_LINUX_GNUEABIHF");
    ("arm64v8", "START_DISTCC_AARCH64_LINUX_GNU") ].

(** [ArchLinuxLike.images_by_arch]. *)
Definition images_by_arch : gmap string string := list_to_map
  [ ("amd64", "archlinux:20200908");
    ("arm32v5", "lopsided/archlinux@sha256:66b26a83a39e26e2a390b5b92105f80e6042d0db79ee22b1f57d169307b87a58");
    ("arm32v6", "lopsided/archlinux@sha256:109729d4d863e14fed6faa1437f0eaee8133b26c310079c8294a4c7db6dbebb5");
    ("arm32v7", "lopsided/archlinux@sha256:fbf2d806f207a2e9a5400bd20672b80ca318a2e59fc56c1c0f90b4e9adb60f4a");
    ("arm64v8", "lopsided/archlinux@sha256:f9d68dd73a85b587539e04ef26b18d91b243bee8e1a343ad97f67183f275e548") ].

(* ===================================================================== *)
(** ** The registry *)
(* ===================================================================== *)

Abbreviation registry := (odict Distro).

(** [Distro.__init__], reached through [DebianLike(name)] or
    [ArchLinuxLike(name)]: builds the instance and stores it under its name;
    nothing is checked. *)
Definition Distro_init (c : family) (name : string) (reg : registry)
  : Distro * registry :=
  let self := mkDistro c name in
  (self, odict_set reg name self).

(** The module-level registrations, in source order. *)
Definition debian_buster : Distro := (Distro_init DebianLike "debian:buster" []).1.
Definition archlinux : Distro :=
  (Distro_init ArchLinuxLike "archlinux" (Distro_init DebianLike "debian:buster" []).2).1.
Definition initial_registry : registry :=
  (Distro_init ArchLinuxLike "archlinux" (Distro_init DebianLike "debian:buster" []).2).2.

(** [Distro.get]. *)
Definition Distro_get (reg : registry) (name : string) : result Distro :=
  match odict_lookup reg name with
  | None =>
      Raise (ValueError ("Unsupported distro " +:+ name +:+ ", choose from "
                         +:+ join ", " (odict_keys reg)))
  | Some d => Ok d
  end.

(** [Distro.out_path]. *)
Definition out_path (self : Distro) : string := slugify (name self).

(* ===================================================================== *)
(** ** The context builder *)
(* ===================================================================== *)

(** [get_compiler_path_part_by_arch], abstract in [Distro] and overridden by
    both subclasses. *)
Definition get_compiler_path_part_by_arch
  (self : Distro) (host_arch compiler_arch : value) : result value :=
  if decide (host_arch = compiler_arch) then Ok (VStr "")
  else
    toolchain ← getitem (toolchains_by_arch (cls self)) compiler_arch;
    match cls self with
    | DebianLike => Ok (VStr ("/usr/local/" // toolchain // "bin:"))
    | ArchLinuxLike => Ok (VStr (toolchain // "bin:"))
    end.

(** [Distro.get_template_context]. *)
Definition Distro_get_template_context (self : Distro) (context : strdict)
  : result strdict :=
  let context :=
    <["distro_slug" := VStr (slugify (name self))]>
      (<["distro" := VStr (name self)]> context) in
  let context :=
    if truthy (dict_get context "tag") then context
    else <["tag" := VStr "devel"]> context in
  let host_arch := dict_get context "host_arch" in
  let client_arch := dict_get context "client_arch" in
  if truthy client_arch then
    host_port ← getitem (ports_by_arch (cls self)) client_arch;
    let toolchain :=
      match client_arch with
      | VStr a => from_option VStr VNone (toolchains_by_arch (cls self) !! a)
      | _ => VNone
      end in
    let context :=
      <["toolchain" := toolchain]> (<["host_port" := VInt host_port]> context) in
    if truthy host_arch then
      part ← get_compiler_path_part_by_arch self host_arch client_arch;
      Ok (<["compiler_path_part" := part]> context)
    else Ok context
  else Ok context.

(** [DebianLike.get_apt_packages_by_host_arch]. *)
Definition get_apt_packages_by_host_arch (host_arch : value) : result string :=
  compilers ← getitem (compilers_by_host_arch DebianLike) host_arch;
  foldl (λ acc compiler_arch,
           packages ← acc;
           p ← getitem packages_by_arch (VStr compiler_arch);
           Ok (packages +:+ " " +:+ p))
        (Ok "build-essential g++ distcc") compilers.

(** [DebianLike.get_template_context]. *)
Definition DebianLike_get_template_context (self : Distro) (context : strdict)
  : result strdict :=
  context ← Distro_get_template_context self context;
  let client_arch := dict_get context "client_arch" in
  let host_arch := dict_get context "host_arch" in
  context ←
    (if truthy client_arch then
       flag ← getitem flags_by_arch client_arch;
       Ok (<["flag" := VStr flag]> context)
     else Ok context);
  if truthy host_arch then
    packages ← get_apt_packages_by_host_arch host_arch;
    Ok (<["packages" := VStr packages]> context)
  else Ok context.

(** [ArchLinuxLike.get_template_context]. *)
Definition ArchLinuxLike_get_template_context (self : Distro) (context : strdict)
  : result strdict :=
  context ← Distro_get_template_context self context;
  let host_arch := dict_get context "host_arch" in
  let client_arch := dict_get context "client_arch" in
  context ←
    (if truthy client_arch then
       client_image ← getitem images_by_arch client_arch;
       let toolchain :=
         match client_arch with
         | VStr a => from_option VStr VNone (toolchains_by_arch (cls self) !! a)
         | _ => VNone
         end in
       Ok (<["toolchain" := toolchain]> (<["client_image" := VStr client_image]> context))
     else Ok context);
  if truthy host_arch then
    host_image ← getitem images_by_arch host_arch;
    Ok (<["host_image" := VStr host_image]> context)
  else Ok context.

(** [self.get_template_context(...)]: the override of the instance's class. *)
Definition get_template_context (self : Distro) (context : strdict)
  : result strdict :=
  match cls self with
  | DebianLike => DebianLike_get_template_context self context
  | ArchLinuxLike => ArchLinuxLike_get_template_context self context
  end.

(* ===================================================================== *)
(** ** [str.format] with keyword arguments *)
(* ===================================================================== *)

(** The scanner of [str.format] as a machine over the characters: literal
    text, just after an opening brace, inside a replacement field, just
    after a closing brace.  Covered: literal text, the escapes [{{] and
    [}}], and replacement fields that are a plain name.  A field that uses a
    conversion ([!]), a format specification ([:]), an attribute ([.]) or an
    index ([[]) ends the run with [Unmodelled]. *)
Inductive scan_state : Type :=
  | InText
  | AfterOpen
  | InField (field_name : string)
  | AfterClose.

Definition PY_SSIZE_T_MAX : Z := 2 ^ 63 - 1.

Inductive arg_index : Type :=
  | NotInteger
  | Index (i : Z)
  | TooManyDigits.

(** CPython's [get_integer]: a field name made of decimal digits (or empty)
    is a position among the positional arguments. *)
Fixpoint get_integer (acc : Z) (s : string) : arg_index :=
  match s with
  | EmptyString => Index acc
  | String c r =>
      if in_range 48 57 c then
        let d := (Z.of_N (N_of_ascii c) - 48)%Z in
        if (acc >? (PY_SSIZE_T_MAX - d) / 10)%Z then TooManyDigits
        else get_integer (acc * 10 + d)%Z r
      else NotInteger
  end.

(** The object a replacement field names.  [format] is called with keyword
    arguments only, so every positional field is out of range. *)
Definition get_field (field_name : string) (context : strdict) : result value :=
  match get_integer 0 field_name with
  | TooManyDigits => Raise (ValueError "Too many decimal digits in format string")
  | Index i =>
      Raise (IndexError ("Replacement index " +:+ pretty i
                         +:+ " out of range for positional args tuple"))
  | NotInteger =>
      match context !! field_name with
      | Some v => Ok v
      | None => Raise (KeyError (VStr field_name))
      end
  end.

Definition unmodelled_field_char (c : ascii) : bool :=
  Ascii.eqb c "!"%char || Ascii.eqb c ":"%char
  || Ascii.eqb c "."%char || Ascii.eqb c "["%char.

(** One character inside a replacement field. *)
Definition field_step (field_name : string) (c : ascii)
  : scan_state + exn :=
  if Ascii.eqb c "{"%char then inr (ValueError "unexpected '{' in field name")
  else if unmodelled_field_char c then inr (Unmodelled "replacement field")
  else inl (InField (field_name +:+ String c EmptyString)).

Fixpoint format_go (st : scan_state) (s : string) (context : strdict)
  : result string :=
  match s with
  | EmptyString =>
      match st with
      | InText => Ok ""
      | AfterOpen => Raise (ValueError "Single '{' encountered in format string")
      | InField _ => Raise (ValueError "expected '}' before end of string")
      | AfterClose => Raise (ValueError "Single '}' encountered in format string")
      end
  | String c r =>
      match st with
      | InText =>
          if Ascii.eqb c "{"%char then format_go AfterOpen r context
          else if Ascii.eqb c "}"%char then format_go AfterClose r context
          else String c <$> format_go InText r context
      | AfterOpen =>
          if Ascii.eqb c "{"%char then String c <$> format_go InText r context
          else if Ascii.eqb c "}"%char then
            v ← get_field "" context;
            String.app (str_of v) <$> format_go InText r context
          else
            match field_step "" c with
            | inl st' => format_go st' r context
            | inr e => Raise e
            end
      | InField field_name =>
          if Ascii.eqb c "}"%char then
            v ← get_field field_name context;
            String.app (str_of v) <$> format_go InText r context
          else
            match field_step field_name c with
            | inl st' => format_go st' r context
            | inr e => Raise e
            end
      | AfterClose =>
          if Ascii.eqb c "}"%char then String c <$> format_go InText r context
          else Raise (ValueError "Single '}' encountered in format string")
      end
  end.

(** [template.format] applied to the unpacked context. *)
Definition str_format (template : string) (context : strdict) : result string :=
  format_go InText template context.

(** The names of the plain replacement fields of a template, in order, as
    far as the scanner gets before a syntax error or an uncovered field. *)
Fixpoint fields_go (st : scan_state) (s : string) : list string :=
  match s with
  | EmptyString => []
  | String c r =>
      match st with
      | InText =>
          if Ascii.eqb c "{"%char then fields_go AfterOpen r
          else if Ascii.eqb c "}"%char then fields_go AfterClose r
          else fields_go InText r
      | AfterOpen =>
          if Ascii.eqb c "{"%char then fields_go InText r
          else if Ascii.eqb c "}"%char then "" :: fields_go InText r
          else
            match field_step "" c with
            | inl st' => fields_go st' r
            | inr _ => []
            end
      | InField field_name =>
          if Ascii.eqb c "}"%char then field_name :: fields_go InText r
          else
            match field_step field_name c with
            | inl st' => fields_go st' r
            | inr _ => []
            end
      | AfterClose =>
          if Ascii.eqb c "}"%char then fields_go InText r else []
      end
  end.

Definition placeholders (template : string) : list string :=
  fields_go InText template.

(* ===================================================================== *)
(** ** The world: files and standard output *)
(* ===================================================================== *)

Inductive node : Type :=
  | File (content : string)
  | Directory.

#[global] Instance node_eq_dec : EqDecision node.
Proof. solve_decision. Defined.

(** [files] maps a path (a relative, normalised, slash-separated name) to
    what is there; the empty path, the working directory itself, is never a
    key that is looked up. *)
Record world : Type := mkWorld {
  files : gmap string node;
  stdout : list string
}.

(** A computation that reads and changes the world and returns or raises.
    What was done before an exception stays done. *)
Definition io (A : Type) : Type := world → world * result A.

#[global] Instance io_ret : MRet io := λ A a w, (w, Ok a).
#[global] Instance io_bind : MBind io := λ A B f m w,
  match m w with
  | (w', Ok a) => f a w'
  | (w', Raise e) => (w', Raise e)
  end.

Definition lift {A} (r : result A) : io A := λ w, (w, r).
Definition raise {A} (e : exn) : io A := λ w, (w, Raise e).

(** [try: body except FileExistsError: pass]. *)
Definition except_FileExistsError_pass (body : io unit) : io unit := λ w,
  match body w with
  | (w', Raise (FileExistsError _)) => (w', Ok tt)
  | r => r
  end.

(** [for x in l: body(x)]. *)
Fixpoint for_each {A} (l : list A) (body : A → io unit) : io unit :=
  match l with
  | [] => mret tt
  | x :: r => body x ;; for_each r body
  end.

(** [print(line)]. *)
Definition print (line : string) : io unit := λ w,
  (mkWorld (files w) (stdout w ++ [line]), Ok tt).

(** *** Paths *)

(** [(p[:i], p[i:])] for [i = p.rfind('/') + 1]. *)
Fixpoint rsplit_slash (p : string) : string * string :=
  match p with
  | EmptyString => (EmptyString, EmptyString)
  | String c r =>
      match rsplit_slash r with
      | (EmptyString, t) =>
          if Ascii.eqb c "/"%char then (String c EmptyString, t)
          else (EmptyString, String c t)
      | (h, t) => (String c h, t)
      end
  end.

Fixpoint all_slashes (s : string) : bool :=
  match s with
  | EmptyString => true
  | String c r => Ascii.eqb c "/"%char && all_slashes r
  end.

(** [s.rstrip('/')]. *)
Fixpoint rstrip_slashes (s : string) : string :=
  match s with
  | EmptyString => EmptyString
  | String c r =>
      match rstrip_slashes r with
      | EmptyString => if Ascii.eqb c "/"%char then EmptyString else String c EmptyString
      | r' => String c r'
      end
  end.

(** [posixpath.split]. *)
Definition path_split (p : string) : string * string :=
  let '(head, tail) := rsplit_slash p in
  (if all_slashes head then head else rstrip_slashes head, tail).

(** [os.path.dirname]. *)
Definition dirname (p : string) : string := (path_split p).1.

(** What is at [p], if anything. *)
Definition stat (fs : gmap string node) (p : string) : option node :=
  if decide (p = "") then None else fs !! p.

(** [os.path.exists]. *)
Definition path_exists (p : string) : io bool := λ w,
  (w, Ok (bool_decide (is_Some (stat (files w) p)))).

(** The directory an entry [p] is to be made in must be there. *)
Definition check_parent (fs : gmap string node) (p : string) : result unit :=
  let d := dirname p in
  if decide (d = "") then Ok tt
  else
    match fs !! d with
    | Some Directory => Ok tt
    | Some (File _) => Raise (NotADirectoryError p)
    | None => Raise (FileNotFoundError p)
    end.

(** *** File operations *)

(** [open(p, 'r').read()]. *)
Definition read_file (p : string) : io string := λ w,
  match stat (files w) p with
  | Some (File content) => (w, Ok content)
  | Some Directory => (w, Raise (IsADirectoryError p))
  | None => (w, Raise (FileNotFoundError p))
  end.

(** [open(p, 'w').write(content)]: creates or truncates. *)
Definition write_file (p content : string) : io unit := λ w,
  if decide (p = "") then (w, Raise (FileNotFoundError p))
  else
    match check_parent (files w) p with
    | Raise e => (w, Raise e)
    | Ok _ =>
        match files w !! p with
        | Some Directory => (w, Raise (IsADirectoryError p))
        | _ => (mkWorld (<[p := File content]> (files w)) (stdout w), Ok tt)
        end
    end.

(** [os.mkdir]. *)
Definition mkdir (p : string) : io unit := λ w,
  if decide (p = "") then (w, Raise (FileNotFoundError p))
  else
    match files w !! p with
    | Some _ => (w, Raise (FileExistsError p))
    | None =>
        match check_parent (files w) p with
        | Raise e => (w, Raise e)
        | Ok _ => (mkWorld (<[p := Directory]> (files w)) (stdout w), Ok tt)
        end
    end.

(** [os.makedirs(name)] with [exist_ok=False]; the recursion on the head of
    the path is bounded by [fuel]. *)
Fixpoint makedirs_fuel (fuel : nat) (name : string) : io unit :=
  match fuel with
  | O => raise RecursionError
  | S fuel =>
      let '(head, tail) := path_split name in
      let '(head, tail) :=
        if decide (tail = "") then path_split head else (head, tail) in
      if decide (head ≠ "" ∧ tail ≠ "") then
        (e ← path_exists head;
         if e : bool then mkdir name
         else
           except_FileExistsError_pass (makedirs_fuel fuel head);;
           if decide (tail = ".") then mret tt else mkdir name) : io unit
      else mkdir name
  end.

Definition makedirs (name : string) : io unit :=
  makedirs_fuel (S (String.length name)) name.

(** [p[len(pre):]] when [p] starts with [pre]. *)
Fixpoint strip_prefix (pre p : string) : option string :=
  match pre, p with
  | EmptyString, _ => Some p
  | String a pre', String b p' =>
      if Ascii.eqb a b then strip_prefix pre' p' else None
  | String _ _, EmptyString => None
  end.

(** [p] lies strictly below the directory [d]. *)
Definition below (d p : string) : bool :=
  bool_decide (is_Some (strip_prefix (d +:+ "/") p)).

(** The entries below [src], renamed to lie below [dst]. *)
Definition relocate (src dst : string) (fs : gmap string node)
  : gmap string node :=
  list_to_map
    (omap (λ '(p, n), (λ rest, (dst +:+ "/" +:+ rest, n)) <$> strip_prefix (src +:+ "/") p)
          (map_to_list fs)).

(** [shutil.copytree(src, dst)] with [dirs_exist_ok=False]: [src] is listed,
    [dst] is made with [os.makedirs], which refuses an existing [dst], and
    the tree below [src] is copied. *)
Definition copytree (src dst : string) : io unit := λ w,
  match stat (files w) src with
  | None => (w, Raise (FileNotFoundError src))
  | Some (File _) => (w, Raise (NotADirectoryError src))
  | Some Directory =>
      match makedirs dst w with
      | (w', Ok _) =>
          (mkWorld (relocate src dst (files w) ∪ files w') (stdout w'), Ok tt)
      | (w', Raise e) => (w', Raise e)
      end
  end.

(** [shutil.rmtree(path)]. *)
Definition rmtree (path : string) : io unit := λ w,
  match stat (files w) path with
  | None => (w, Raise (FileNotFoundError path))
  | Some (File _) => (w, Raise (NotADirectoryError path))
  | Some Directory =>
      (mkWorld (filter (λ '(p, _), p ≠ path ∧ below path p = false) (files w))
               (stdout w), Ok tt)
  end.

(* ===================================================================== *)
(** ** The template renderer *)
(* ===================================================================== *)

(** [render(template, out, context)]. *)
Definition render (template out : string) (context : strdict) : io string :=
  text ← read_file template;
  rendered ← lift (str_format text context);
  let dir_name := dirname out in
  e ← path_exists dir_name;
  (if e : bool then mret tt else makedirs dir_name);;
  write_file out rendered;;
  print ("Wrote " +:+ out);;
  mret out.

(* ===================================================================== *)
(** ** The distribution orchestrator *)
(* ===================================================================== *)

(** [self.get_template_context(k1=v1, ..., **kwargs)]. *)
Definition kw_context (self : Distro) (explicit : list (string * value))
  (kwargs : strdict) : result strdict :=
  kw ← foldl (λ acc kv, kw ← acc; call_kw kv.1 kv.2 kw) (Ok kwargs) explicit;
  get_template_context self kw.

Definition context_for (self : Distro) (explicit : list (string * value))
  (kwargs : strdict) : io strdict :=
  lift (kw_context self explicit kwargs).

(** [Distro.render_dockerfile_host]. *)
Definition Distro_render_dockerfile_host (self : Distro) (kwargs : strdict)
  : io unit :=
  for_each (host_archs (cls self)) (λ host_arch,
    context ← context_for self [("host_arch", VStr host_arch)] kwargs;
    render (template_path (cls self) // "host/Dockerfile.template")
           (out_path self // "host" // ("Dockerfile." +:+ host_arch))
           context;;
    mret tt).

(** [Distro.render_dockerfile_client]. *)
Definition Distro_render_dockerfile_client (self : Distro) (kwargs : strdict)
  : io unit :=
  for_each (client_archs (cls self)) (λ client_arch,
    context ← context_for self [("client_arch", VStr client_arch)] kwargs;
    render (template_path (cls self) // "client/Dockerfile.template")
           (out_path self // "client" // ("Dockerfile." +:+ client_arch))
           context;;
    mret tt).

(** [Distro.docker_compose_file_path]. *)
Definition docker_compose_file_path (self : Distro) (host_arch client_arch : string)
  : string :=
  let distro_slug := slugify (name self) in
  out_path self // ("docker-compose." +:+ distro_slug +:+ ".host-" +:+ host_arch
                    +:+ ".client-" +:+ client_arch +:+ ".yml").

(** [Distro.render_docker_compose]. *)
Definition Distro_render_docker_compose (self : Distro) (kwargs : strdict)
  : io unit :=
  for_each (host_archs (cls self)) (λ host_arch,
    for_each (client_archs (cls self)) (λ client_arch,
      context ← context_for self
        [("host_arch", VStr host_arch); ("client_arch", VStr client_arch)] kwargs;
      render (template_path (cls self) // "docker-compose.template.yml")
             (docker_compose_file_path self host_arch client_arch)
             context;;
      mret tt)).

(** [Distro.render]. *)
Definition Distro_render (self : Distro) (kwargs : strdict) : io unit :=
  Distro_render_dockerfile_host self kwargs;;
  Distro_render_dockerfile_client self kwargs;;
  Distro_render_docker_compose self kwargs.

(** [for client_arch in self.compilers_by_host_arch[host_arch]: ...]. *)
Definition for_each_compiler (self : Distro) (host_arch : string)
  (body : string → io unit) : io unit :=
  compilers ← lift (getitem (compilers_by_host_arch (cls self)) (VStr host_arch));
  for_each compilers body.

(** [DebianLike.render_initd_distccd]. *)
Definition DebianLike_render_initd_distccd (self : Distro) (kwargs : strdict)
  : io unit :=
  for_each (host_archs (cls self)) (λ host_arch,
    for_each_compiler self host_arch (λ client_arch,
      context ← context_for self
        [("host_arch", VStr host_arch); ("client_arch", VStr client_arch)] kwargs;
      let leaf := "distccd.host-" +:+ host_arch +:+ ".client-" +:+ client_arch in
      render (template_path (cls self) // "host/build-context/etc/default/distccd.template")
             (out_path self // "host/build-context/etc/default" // leaf)
             context;;
      render (template_path (cls self) // "host/build-context/etc/init.d/distccd.template")
             (out_path self // "host/build-context/etc/init.d" // leaf)
             context;;
      render (template_path (cls self) // "host/build-context/etc/logrotate.d/distccd.template")
             (out_path self // "host/build-context/etc/logrotate.d" // leaf)
             context;;
      mret tt)).

(** [DebianLike.render]. *)
Definition DebianLike_render (self : Distro) (kwargs : strdict) : io unit :=
  Distro_render self kwargs;;
  DebianLike_render_initd_distccd self kwargs.

(** The tail of [ArchLinuxLike.render_systemd_distccd]: the four
    [shutil.copytree] calls, each followed by its [print]. *)
Definition copy_build_contexts (self : Distro) : io unit :=
  let host_build_context_dir := out_path self // "host/build-context" in
  let client_build_context_dir := out_path self // "client/build-context" in
  let scripts := template_path (cls self) // "client/scripts" in
  copytree scripts (client_build_context_dir // "scripts");;
  print ("Copied " +:+ scripts +:+ " to " +:+ client_build_context_dir);;
  let shared := "shared-build-context/client" in
  copytree shared client_build_context_dir;;
  print ("Copied " +:+ shared +:+ " to " +:+ client_build_context_dir);;
  let scripts := template_path (cls self) // "host/scripts" in
  copytree scripts (host_build_context_dir // "scripts");;
  print ("Copied " +:+ scripts +:+ " to " +:+ host_build_context_dir);;
  let shared := "shared-build-context/host" in
  copytree shared host_build_context_dir;;
  print ("Copied " +:+ shared +:+ " to " +:+ host_build_context_dir).

(** [ArchLinuxLike.render_systemd_distccd]. *)
Definition ArchLinuxLike_render_systemd_distccd (self : Distro) (kwargs : strdict)
  : io unit :=
  for_each (host_archs (cls self)) (λ host_arch,
    for_each_compiler self host_arch (λ client_arch,
      context ← context_for self
        [("host_arch", VStr host_arch); ("client_arch", VStr client_arch)] kwargs;
      let stem := "distccd.host-" +:+ host_arch +:+ ".client-" +:+ client_arch in
      render (template_path (cls self) // "host/build-context/etc/conf.d/distccd.template")
             (out_path self // "host/build-context/etc/conf.d" // stem)
             context;;
      render (template_path (cls self)
                // "host/build-context/usr/lib/systemd/system/distccd.template.service")
             (out_path self // "host/build-context/usr/lib/systemd/system"
                // (stem +:+ ".service"))
             context;;
      mret tt));;
  copy_build_contexts self.

(** [ArchLinuxLike.render]. *)
Definition ArchLinuxLike_render (self : Distro) (kwargs : strdict) : io unit :=
  Distro_render self kwargs;;
  ArchLinuxLike_render_systemd_distccd self kwargs.

(** [self.render(...)]: the override of the instance's class. *)
Definition self_render (self : Distro) (kwargs : strdict) : io unit :=
  match cls self with
  | DebianLike => DebianLike_render self kwargs
  | ArchLinuxLike => ArchLinuxLike_render self kwargs
  end.

(** [Distro.clean]. *)
Definition clean (self : Distro) : io unit :=
  rmtree (out_path self);;
  print ("Removed " +:+ out_path self).

(** [Distro.clean_all]. *)
Definition clean_all (reg : registry) : io unit :=
  for_each (odict_values reg) clean.

(* ===================================================================== *)
(** ** The command line *)
(* ===================================================================== *)

(** The subcommands that stay inside the embedding, as [argparse] hands them
    over before the [type=Distro.get] conversion; [tag] is the value of
    [--tag], if given. *)
Inductive command : Type :=
  | list_distros
  | list_host_archs (distro : string)
  | list_client_archs (distro : string)
  | render_cmd (distro : string) (tag : option string)
  | render_all (tag : option string)
  | clean_cmd.

(** The [type=Distro.get] conversion of an argument: [argparse] turns the
    [ValueError] into a usage error and exits with status 2. *)
Definition distro_argument (reg : registry) (distro : string) : io Distro :=
  match Distro_get reg distro with
  | Ok d => mret d
  | Raise _ => raise (SystemExit 2)
  end.

Definition tag_argument (tag : option string) : strdict :=
  {[ "tag" := VStr (default "devel" tag) ]}.

(** [main], for the subcommands above. *)
Definition main (reg : registry) (args : command) : io unit :=
  match args with
  | list_distros => print (join (String "010" "") (odict_keys reg))
  | list_host_archs distro =>
      d ← distro_argument reg distro;
      print (join (String "010" "") (host_archs (cls d)))
  | list_client_archs distro =>
      d ← distro_argument reg distro;
      print (join (String "010" "") (client_archs (cls d)))
  | render_cmd distro tag =>
      d ← distro_argument reg distro;
      self_render d (tag_argument tag)
  | render_all tag =>
      for_each (odict_values reg) (λ d, self_render d (tag_argument tag))
  | clean_cmd => clean_all reg
  end.

(* ===================================================================== *)
(** ** Building with the container engine *)
(* ===================================================================== *)

(** The container engine and the QEMU setup are outside the program: they
    are taken as they come, as computations on the world that return or
    raise, together with the test that tells which exceptions of the engine
    are [sh.ErrorReturnCode_1]. *)
Section container_engine.
Variable configure_qemu : io unit.
Variable docker : list string → io unit.
Variable is_ErrorReturnCode_1 : exn → bool.

(** [try: body except ErrorReturnCode_1: pass]. *)
Definition except_ErrorReturnCode_1_pass (body : io unit) : io unit := λ w,
  match body w with
  | (w', Raise e) => if is_ErrorReturnCode_1 e then (w', Ok tt) else (w', Raise e)
  | r => r
  end.

(** [Distro.build_host]. *)
Definition build_host (self : Distro) (host_arch : string) (kwargs : strdict)
  : io unit :=
  configure_qemu;;
  context ← lift (get_template_context self kwargs);
  self_render self context;;
  image ← lift (kw ← call_kw "host_arch" (VStr host_arch) context;
                str_format
                  "elijahru/distcc-cross-compiler-host-{distro_slug}:{tag}-{host_arch}"
                  kw);
  let dockerfile := out_path self // ("host/Dockerfile." +:+ host_arch) in
  except_ErrorReturnCode_1_pass (docker ["pull"; image]);;
  docker ["build"; out_path self // "host/build-context";
          "--file"; dockerfile; "--tag"; image; "--cache-from"; image].

(** [Distro.build_client]. *)
Definition build_client (self : Distro) (client_arch : string) (kwargs : strdict)
  : io unit :=
  configure_qemu;;
  context ← context_for self [("client_arch", VStr client_arch)] kwargs;
  self_render self context;;
  image ← lift (str_format
                  "elijahru/distcc-cross-compiler-client-{distro_slug}:{tag}-{client_arch}"
                  context);
  let dockerfile := out_path self // ("client/Dockerfile." +:+ client_arch) in
  except_ErrorReturnCode_1_pass (docker ["pull"; image]);;
  docker ["build"; out_path self // "client/build-context";
          "--file"; dockerfile; "--tag"; image; "--cache-from"; image].

(** [Distro.build_all]; [tag] is the value passed as [tag=]. *)
Definition build_all (reg : registry) (tag : value) : io unit :=
  for_each (odict_values reg) (λ distro,
    for_each (host_archs (cls distro)) (λ host_arch,
      build_host distro host_arch {["tag" := tag]});;
    for_each (client_archs (cls distro)) (λ client_arch,
      build_client distro client_arch {["tag" := tag]})).
End container_engine.

(* ===================================================================== *)
(** ** Vocabulary of the statements *)
(* ===================================================================== *)

(** The keyword arguments of a call that passes both architectures. *)
Definition both_archs (host_arch client_arch : string) (kwargs : strdict)
  : strdict :=
  <["host_arch" := VStr host_arch]> (<["client_arch" := VStr client_arch]> kwargs).

(** The context after the first two statements of
    [Distro.get_template_context]: the distribution's name and slug are
    stored and an absent or falsy tag is replaced. *)
Definition base_context (self : Distro) (kwargs : strdict) : strdict :=
  let context :=
    <["distro_slug" := VStr (slugify (name self))]>
      (<["distro" := VStr (name self)]> kwargs) in
  if truthy (dict_get context "tag") then context
  else <["tag" := VStr "devel"]> context.

(** What is said of the compiler-path fragment of one call: the builder
    returns, and the fragment is empty for equal architectures and otherwise
    a non-empty string that holds the client's toolchain path followed by
    [/bin:]. *)
Definition compiler_path_part_as_stated
  (self : Distro) (host_arch client_arch : string) (kwargs : strdict) : Prop :=
  ∃ context part,
    get_template_context self (both_archs host_arch client_arch kwargs) = Ok context
    ∧ context !! "compiler_path_part" = Some (VStr part)
    ∧ (host_arch = client_arch → part = "")
    ∧ (host_arch ≠ client_arch →
       part ≠ ""
       ∧ ∃ toolchain,
           toolchains_by_arch (cls self) !! client_arch = Some toolchain
           ∧ contains part (toolchain +:+ "/bin:")).

(** An exception of Python, as opposed to the marker of an uncovered
    template feature. *)
Definition python_exception (e : exn) : Prop :=
  match e with
  | Unmodelled _ => False
  | _ => True
  end.

(** What is said of a client architecture without a port: the builder
    raises [KeyError] for it. *)
Definition missing_port_raises
  (self : Distro) (kwargs : strdict) (client_arch : string) : Prop :=
  kwargs !! "client_arch" = Some (VStr client_arch) →
  ports_by_arch (cls self) !! client_arch = None →
  get_template_context self kwargs = Raise (KeyError (VStr client_arch)).

(** A project directory with templates for the Debian family, before
    anything is rendered.  The templates of the repository are not part of
    the embedding; these stand in for them and use the placeholders the
    builder provides. *)
Definition debian_project : world :=
  mkWorld
    (list_to_map
       [ ("debian-like", Directory);
         ("debian-like/host", Directory);
         ("debian-like/host/Dockerfile.template",
          File "FROM {host_arch}/debian:buster # {distro_slug}:{tag} apt-get install {packages}");
         ("debian-like/client", Directory);
         ("debian-like/client/Dockerfile.template",
          File "FROM {client_arch}/debian:buster # {toolchain} {flag} port {host_port}");
         ("debian-like/docker-compose.template.yml",
          File "image: host-{distro_slug}:{tag}-{host_arch} ports: {host_port}:{host_port} env: ${{HOME}}");
         ("debian-like/host/build-context", Directory);
         ("debian-like/host/build-context/etc", Directory);
         ("debian-like/host/build-context/etc/default", Directory);
         ("debian-like/host/build-context/etc/default/distccd.template",
          File "{flag}=true PATH={compiler_path_part}$PATH PORT={host_port}");
         ("debian-like/host/build-context/etc/init.d", Directory);
         ("debian-like/host/build-context/etc/init.d/distccd.template",
          File "NAME=distccd.host-{host_arch}.client-{client_arch}");
         ("debian-like/host/build-context/etc/logrotate.d", Directory);
         ("debian-like/host/build-context/etc/logrotate.d/distccd.template",
          File "/var/log/distccd.{toolchain}.log {{ weekly }}") ])
    [].

(** The same for the Arch Linux family, with the script and shared
    directories that [render_systemd_distccd] copies. *)
Definition archlinux_project : world :=
  mkWorld
    (list_to_map
       [ ("archlinux-like", Directory);
         ("archlinux-like/host", Directory);
         ("archlinux-like/host/Dockerfile.template",
          File "FROM {host_image} # {distro_slug}:{tag}");
         ("archlinux-like/host/scripts", Directory);
         ("archlinux-like/host/scripts/run.sh", File "exec distccd");
         ("archlinux-like/client", Directory);
         ("archlinux-like/client/Dockerfile.template",
          File "FROM {client_image} # {toolchain} port {host_port}");
         ("archlinux-like/client/scripts", Directory);
         ("archlinux-like/client/scripts/test.sh", File "exec distcc");
         ("archlinux-like/docker-compose.template.yml",
          File "image: host-{distro_slug}:{tag}-{host_arch} ports: {host_port}:{host_port}");
         ("archlinux-like/host/build-context", Directory);
         ("archlinux-like/host/build-context/etc", Directory);
         ("archlinux-like/host/build-context/etc/conf.d", Directory);
         ("archlinux-like/host/build-context/etc/conf.d/distccd.template",
          File "PATH={compiler_path_part}$PATH PORT={host_port}");
         ("archlinux-like/host/build-context/usr", Directory);
         ("archlinux-like/host/build-context/usr/lib", Directory);
         ("archlinux-like/host/build-context/usr/lib/systemd", Directory);
         ("archlinux-like/host/build-context/usr/lib/systemd/system", Directory);
         ("archlinux-like/host/build-context/usr/lib/systemd/system/distccd.template.service",
          File "EnvironmentFile=/etc/conf.d/distccd.host-{host_arch}.client-{client_arch}");
         ("shared-build-context", Directory);
         ("shared-build-context/host", Directory);
         ("shared-build-context/host/entrypoint.sh", File "exec $@");
         ("shared-build-context/client", Directory);
         ("shared-build-context/client/entrypoint.sh", File "exec $@") ])
    [].

(** The first two components of a [render] call. *)
Definition template_of {C} (x : string * string * C) : string := x.1.1.
Definition out_of {C} (x : string * string * C) : string := x.1.2.

(** One [render] call: template, output path, context. *)
Definition job : Type := string * string * strdict.

Definition run_job (j : job) : io unit :=
  render j.1.1 j.1.2 j.2;; mret tt.

Definition run_jobs (js : list job) : io unit := for_each js run_job.

(** The file map [fs'] has what [fs] has, and besides only directories
    where [fs] has nothing. *)
Definition grows (fs fs' : gmap string node) : Prop :=
  ∀ p, fs' !! p = fs !! p ∨ (fs !! p = None ∧ fs' !! p = Some Directory).

(** The file map [fs'] is [fs] after a file was written at [out], with
    directories added on the way. *)
Definition written (out : string) (fs fs' : gmap string node) : Prop :=
  ∃ fs1 content,
    grows fs fs1 ∧ fs' = <[out := File content]> fs1
    ∧ fs1 !! out ≠ Some Directory.

(** The output of a job is in place: its template is a file, the output
    holds the rendered template, and the output's directory is there. *)
Definition settled (fs : gmap string node) (j : job) : Prop :=
  ∃ text rendered,
    stat fs j.1.1 = Some (File text)
    ∧ str_format text j.2 = Ok rendered
    ∧ fs !! j.1.2 = Some (File rendered)
    ∧ dirname j.1.2 ≠ ""
    ∧ fs !! dirname j.1.2 = Some Directory.

(** One [render] call of the orchestrator before its context is built:
    template, output path, and the keyword arguments that the call adds to
    those it was given. *)
Definition target : Type := string * string * list (string * value).

(** The [render] calls of [Distro.render], in order. *)
Definition Distro_render_targets (self : Distro) : list target :=
  (host_arch ← host_archs (cls self);
   [ (template_path (cls self) // "host/Dockerfile.template",
      out_path self // "host" // ("Dockerfile." +:+ host_arch),
      [("host_arch", VStr host_arch)]) ])
  ++ (client_arch ← client_archs (cls self);
      [ (template_path (cls self) // "client/Dockerfile.template",
         out_path self // "client" // ("Dockerfile." +:+ client_arch),
         [("client_arch", VStr client_arch)]) ])
  ++ (host_arch ← host_archs (cls self);
      client_arch ← client_archs (cls self);
      [ (template_path (cls self) // "docker-compose.template.yml",
         docker_compose_file_path self host_arch client_arch,
         [("host_arch", VStr host_arch); ("client_arch", VStr client_arch)]) ]).

(** The [render] calls of [DebianLike.render_initd_distccd]. *)
Definition initd_targets (self : Distro) : list target :=
  host_arch ← host_archs (cls self);
  client_arch ← default [] (compilers_by_host_arch (cls self) !! host_arch);
  let explicit :=
    [("host_arch", VStr host_arch); ("client_arch", VStr client_arch)] in
  let leaf := "distccd.host-" +:+ host_arch +:+ ".client-" +:+ client_arch in
  [ (template_path (cls self) // "host/build-context/etc/default/distccd.template",
     out_path self // "host/build-context/etc/default" // leaf, explicit);
    (template_path (cls self) // "host/build-context/etc/init.d/distccd.template",
     out_path self // "host/build-context/etc/init.d" // leaf, explicit);
    (template_path (cls self) // "host/build-context/etc/logrotate.d/distccd.template",
     out_path self // "host/build-context/etc/logrotate.d" // leaf, explicit) ].

(** The [render] calls of [DebianLike.render], in order. *)
Definition DebianLike_render_targets (self : Distro) : list target :=
  Distro_render_targets self ++ initd_targets self.

(** A target with the context the orchestrator builds for it, or the
    exception that building it raises. *)
Definition planned (self : Distro) (kwargs : strdict) (t : target)
  : string * string * result strdict :=
  (t.1.1, t.1.2, kw_context self t.2 kwargs).

Definition planned_job (j : job) : string * string * result strdict :=
  (j.1.1, j.1.2, Ok j.2).

Definition is_ok {A} (r : result A) : bool :=
  match r with Ok _ => true | Raise _ => false end.

(** The table lookups that the builder of the instance's class makes for a
    client architecture [c] and a host architecture [h] all succeed. *)
Definition archs_ok (self : Distro) (c h : value) : bool :=
  (if truthy c then
     is_ok (getitem (ports_by_arch (cls self)) c)
     && (if truthy h then is_ok (get_compiler_path_part_by_arch self h c)
         else true)
     && match cls self with
        | DebianLike => is_ok (getitem flags_by_arch c)
        | ArchLinuxLike => is_ok (getitem images_by_arch c)
        end
   else true)
  && (if truthy h then
        match cls self with
        | DebianLike => is_ok (get_apt_packages_by_host_arch h)
        | ArchLinuxLike => is_ok (getitem images_by_arch h)
        end
      else true).

(** Every context of the targets can be built. *)
Definition buildable (self : Distro) (kwargs : strdict) (ts : list target)
  : Prop :=
  Forall (λ t, ∃ context, kw_context self t.2 kwargs = Ok context) ts.

(** The program [m] does what running the jobs of [plan] does; the contexts
    of the plan are all built. *)
Definition performs (m : io unit)
  (plan : list (string * string * result strdict)) : Prop :=
  ∃ js, plan = planned_job <$> js ∧ ∀ w, m w = run_jobs js w.

(** Every character of [s] passes [P]. *)
Fixpoint string_forall (P : ascii → bool) (s : string) : bool :=
  match s with
  | EmptyString => true
  | String c r => P c && string_forall P r
  end.

(** The characters of a slug: lower-case letters, digits, the underscore
    and the hyphen. *)
Definition slug_char (c : ascii) : bool :=
  in_range 48 57 c || in_range 97 122 c
  || Ascii.eqb c "_"%char || Ascii.eqb c "-"%char.

(** The registry maps every key to an instance of that name, and no key
    occurs twice. *)
Definition registry_ok (reg : registry) : Prop :=
  NoDup (odict_keys reg) ∧ Forall (λ kd, name kd.2 = kd.1) reg.

(** The [render] calls of [ArchLinuxLike.render_systemd_distccd]. *)
Definition systemd_targets (self : Distro) : list target :=
  host_arch ← host_archs (cls self);
  client_arch ← default [] (compilers_by_host_arch (cls self) !! host_arch);
  let explicit :=
    [("host_arch", VStr host_arch); ("client_arch", VStr client_arch)] in
  let stem := "distccd.host-" +:+ host_arch +:+ ".client-" +:+ client_arch in
  [ (template_path (cls self) // "host/build-context/etc/conf.d/distccd.template",
     out_path self // "host/build-context/etc/conf.d" // stem, explicit);
    (template_path (cls self)
       // "host/build-context/usr/lib/systemd/system/distccd.template.service",
     out_path self // "host/build-context/usr/lib/systemd/system"
       // (stem +:+ ".service"), explicit) ].

(** The [render] calls of [self.render], in order. *)
Definition render_targets (self : Distro) : list target :=
  match cls self with
  | DebianLike => DebianLike_render_targets self
  | ArchLinuxLike => Distro_render_targets self ++ systemd_targets self
  end.

(** Neither brace. *)
Definition not_brace (c : ascii) : bool :=
  negb (Ascii.eqb c "{"%char || Ascii.eqb c "}"%char).

(** The tables of the instance's class hold what its builder looks up for a
    host architecture [h] and a client architecture [c]: a port for [c], a
    toolchain for [c] unless [h] is [c], and then for the Debian family a
    flag for [c] and the compilers of [h] (whose packages the table of the
    family always has), for the Arch Linux family an image for each. *)
Definition tables_have (self : Distro) (h c : string) : bool :=
  bool_decide (is_Some (ports_by_arch (cls self) !! c))
  && (bool_decide (h = c)
      || bool_decide (is_Some (toolchains_by_arch (cls self) !! c)))
  && match cls self with
     | DebianLike =>
         bool_decide (is_Some (flags_by_arch !! c))
         && bool_decide (is_Some (compilers_by_host_arch DebianLike !! h))
     | ArchLinuxLike =>
         bool_decide (is_Some (images_by_arch !! c))
         && bool_decide (is_Some (images_by_arch !! h))
     end.

(** Where the toolchains of a family live. *)
Definition toolchain_root (c : family) : string :=
  match c with
  | DebianLike => "/usr/local/"
  | ArchLinuxLike => ""
  end.

(** The compiler-path fragment of one call, to the letter: the builder
    returns, and the fragment is empty for equal architectures and otherwise
    the family's root, the client's toolchain path and [/bin:]. *)
Definition compiler_path_part_exact
  (self : Distro) (host_arch client_arch : string) (kwargs : strdict) : Prop :=
  ∃ context part,
    get_template_context self (both_archs host_arch client_arch kwargs) = Ok context
    ∧ context !! "compiler_path_part" = Some (VStr part)
    ∧ (host_arch = client_arch → part = "")
    ∧ (host_arch ≠ client_arch →
       part ≠ ""
       ∧ ∃ toolchain,
           toolchains_by_arch (cls self) !! client_arch = Some toolchain
           ∧ part = toolchain_root (cls self) +:+ toolchain +:+ "/bin:").

(** The replacement fields of a template that the scanner reaches are plain
    names: none uses a conversion, a format specification, an attribute or
    an index.  What follows a syntax error is not looked at, as in
    [str.format]. *)
Fixpoint plain_go (st : scan_state) (s : string) : bool :=
  match s with
  | EmptyString => true
  | String c r =>
      match st with
      | InText =>
          if Ascii.eqb c "{"%char then plain_go AfterOpen r
          else if Ascii.eqb c "}"%char then plain_go AfterClose r
          else plain_go InText r
      | AfterOpen =>
          if Ascii.eqb c "{"%char then plain_go InText r
          else if Ascii.eqb c "}"%char then plain_go InText r
          else if unmodelled_field_char c then false
          else plain_go (InField (String c EmptyString)) r
      | InField field_name =>
          if Ascii.eqb c "}"%char then plain_go InText r
          else if Ascii.eqb c "{"%char then true
          else if unmodelled_field_char c then false
          else plain_go (InField (field_name +:+ String c EmptyString)) r
      | AfterClose =>
          if Ascii.eqb c "}"%char then plain_go InText r else true
      end
  end.

Definition plain (template : string) : bool := plain_go InText template.

(** The braces of a template of plain fields are in order: every opening
    brace is doubled or starts a replacement field that is closed, and every
    other closing brace is doubled. *)
Fixpoint well_formed_go (st : scan_state) (s : string) : bool :=
  match s with
  | EmptyString =>
      match st with
      | InText => true
      | _ => false
      end
  | String c r =>
      match st with
      | InText =>
          if Ascii.eqb c "{"%char then well_formed_go AfterOpen r
          else if Ascii.eqb c "}"%char then well_formed_go AfterClose r
          else well_formed_go InText r
      | AfterOpen =>
          if Ascii.eqb c "{"%char then well_formed_go InText r
          else if Ascii.eqb c "}"%char then well_formed_go InText r
          else if unmodelled_field_char c then false
          else well_formed_go (InField (String c EmptyString)) r
      | InField field_name =>
          if Ascii.eqb c "}"%char then well_formed_go InText r
          else if Ascii.eqb c "{"%char then false
          else if unmodelled_field_char c then false
          else well_formed_go (InField (field_name +:+ String c EmptyString)) r
      | AfterClose =>
          if Ascii.eqb c "}"%char then well_formed_go InText r else false
      end
  end.

Definition well_formed (template : string) : bool :=
  well_formed_go InText template.

(** A field name that is looked up among the keyword arguments whatever
    follows: it starts with an ASCII letter or an underscore, so it is
    neither empty nor a number. *)
Definition is_name (k : string) : bool :=
  match k with
  | String c _ => is_word_char c && negb (in_range 48 57 c)
  | EmptyString => false
  end.

(** A component of a path that names an entry. *)
Definition proper_component (s : string) : bool :=
  negb (String.eqb s "" || String.eqb s "." || String.eqb s "..").

(** A path in normal form, as the keys of the file map are: relative, its
    components separated by single slashes, none of them empty, [.] or
    [..]. *)
Fixpoint normal_go (component s : string) : bool :=
  match s with
  | EmptyString => proper_component component
  | String c r =>
      if Ascii.eqb c "/"%char then proper_component component && normal_go "" r
      else normal_go (component +:+ String c EmptyString) r
  end.

Definition normal_path (p : string) : bool := normal_go "" p.

(** Only ASCII characters: on such strings the characters here are the
    characters of Python's [str]. *)
Definition ascii_only (s : string) : bool := string_forall (in_range 0 127) s.

(* ===================================================================== *)
(** ** Facts about strings *)
(* ===================================================================== *)

Lemma app_cons (x : ascii) (a b : string) :
  String x a +:+ b = String x (a +:+ b).
Proof. reflexivity. Qed.

Lemma app_assoc_s (a b c : string) : (a +:+ b) +:+ c = a +:+ (b +:+ c).
Proof. induction a as [|x a IH]; [done | by rewrite !app_cons, IH]. Qed.

Lemma app_empty_r (a : string) : a +:+ "" = a.
Proof. induction a as [|x a IH]; [done | by rewrite app_cons, IH]. Qed.

Lemma contains_refl (s : string) : contains s s.
Proof. exists "", "". by rewrite app_empty_r. Qed.

Lemma contains_app_l (a b k : string) : contains a k → contains (a +:+ b) k.
Proof.
  intros (pre & post & ->). exists pre, (post +:+ b).
  by rewrite !app_assoc_s.
Qed.

Lemma contains_app_r (a b k : string) : contains b k → contains (a +:+ b) k.
Proof.
  intros (pre & post & ->). exists (a +:+ pre), post.
  by rewrite !app_assoc_s.
Qed.

(** Every element of a joined list occurs in the result. *)
Lemma contains_join (sep : string) (l : list string) (k : string) :
  k ∈ l → contains (join sep l) k.
Proof.
  unfold join. induction l as [|x l IH]; intros Hk.
  - by apply elem_of_nil in Hk.
  - apply elem_of_cons in Hk as [-> | Hk].
    + destruct l as [|y l]; simpl.
      * apply contains_refl.
      * apply contains_app_l, contains_refl.
    + destruct l as [|y l].
      * by apply elem_of_nil in Hk.
      * change (contains (x +:+ sep +:+ String.concat sep (y :: l)) k).
        apply contains_app_r, contains_app_r, IH, Hk.
Qed.

(* ===================================================================== *)
(** ** The registry *)
(* ===================================================================== *)

Section odict_facts.
Context {V : Type}.
Implicit Types (d : odict V) (k : string) (v : V).

Lemma odict_lookup_None d k : odict_lookup d k = None ↔ k ∉ odict_keys d.
Proof.
  unfold odict_keys. induction d as [|[k' v'] d IH]; simpl.
  - split; [intros _; apply not_elem_of_nil | done].
  - rewrite not_elem_of_cons. destruct (decide (k' = k)) as [->|Hne].
    + split; [done | intros [? _]; done].
    + rewrite IH. split; [intros ?; split; [by intros -> | done] | by intros [_ ?]].
Qed.

Lemma odict_lookup_set_eq d k v : odict_lookup (odict_set d k v) k = Some v.
Proof.
  induction d as [|[k' v'] d IH]; simpl.
  - by rewrite decide_True.
  - destruct (decide (k' = k)) as [->|Hne]; simpl.
    + by rewrite decide_True.
    + by rewrite decide_False.
Qed.

Lemma odict_lookup_set_ne d k k' v :
  k ≠ k' → odict_lookup (odict_set d k v) k' = odict_lookup d k'.
Proof.
  intros Hne. induction d as [|[k0 v0] d IH]; simpl.
  - by rewrite decide_False.
  - destruct (decide (k0 = k)) as [->|Hne0]; simpl.
    + by rewrite !decide_False.
    + destruct (decide (k0 = k')); [done | apply IH].
Qed.

(** Assigning to a key that is present leaves the order of the keys as it
    was. *)
Lemma odict_keys_set_present d k v :
  k ∈ odict_keys d → odict_keys (odict_set d k v) = odict_keys d.
Proof.
  unfold odict_keys. induction d as [|[k0 v0] d IH]; simpl; intros Hk.
  - by apply elem_of_nil in Hk.
  - destruct (decide (k0 = k)) as [->|Hne]; simpl; [done |].
    apply elem_of_cons in Hk as [-> | Hk]; [done |]. f_equal. by apply IH.
Qed.

(** Assigning to a new key appends it. *)
Lemma odict_keys_set_absent d k v :
  k ∉ odict_keys d → odict_keys (odict_set d k v) = (odict_keys d ++ [k])%list.
Proof.
  unfold odict_keys. induction d as [|[k0 v0] d IH]; simpl; intros Hk; [done |].
  apply not_elem_of_cons in Hk as [Hne Hk].
  rewrite decide_False by done. simpl. f_equal. by apply IH.
Qed.
End odict_facts.

(** C3.  Looking up a name that is not registered raises [ValueError], and
    the message contains every registered name; looking up a registered name
    returns the distribution stored under it. *)
Theorem Distro_get_spec (reg : registry) (distro : string) :
  (distro ∉ odict_keys reg →
   ∃ msg, Distro_get reg distro = Raise (ValueError msg)
          ∧ ∀ k, k ∈ odict_keys reg → contains msg k)
  ∧ (∀ d, odict_lookup reg distro = Some d → Distro_get reg distro = Ok d)
  ∧ (distro ∈ odict_keys reg → ∃ d, Distro_get reg distro = Ok d).
Proof.
  unfold Distro_get. split; [|split].
  - intros Hnot. apply odict_lookup_None in Hnot. rewrite Hnot.
    eexists; split; [reflexivity |].
    intros k Hk. do 3 apply contains_app_r. by apply contains_join.
  - intros d ->. done.
  - intros Hin. destruct (odict_lookup reg distro) as [d|] eqn:E; [by eexists |].
    apply odict_lookup_None in E. done.
Qed.

(** The lookup of C3 on the registry the module builds. *)
Lemma Distro_get_spec_witness :
  (∃ msg, Distro_get initial_registry "fedora" = Raise (ValueError msg)
          ∧ contains msg "debian:buster" ∧ contains msg "archlinux")
  ∧ Distro_get initial_registry "archlinux" = Ok archlinux.
Proof.
  split.
  - destruct (proj1 (Distro_get_spec initial_registry "fedora")) as (msg & E & H).
    { compute_done. }
    exists msg. split; [done |]. split; apply H; compute_done.
  - apply (proj1 (proj2 (Distro_get_spec initial_registry "archlinux"))).
    reflexivity.
Defined.

(** C7.  Registering under a name that is already in the registry does not
    fail: the new instance replaces the old one in place, the lookup of the
    name returns the new instance, and the other entries stay. *)
Theorem Distro_init_last_write_wins
  (reg : registry) (c : family) (distro : string) (old : Distro) :
  odict_lookup reg distro = Some old →
  let '(self, reg') := Distro_init c distro reg in
  self = mkDistro c distro
  ∧ Distro_get reg' distro = Ok self
  ∧ odict_keys reg' = odict_keys reg
  ∧ ∀ other, other ≠ distro → Distro_get reg' other = Distro_get reg other.
Proof.
  intros Hold. simpl. split; [done |]. unfold Distro_get.
  rewrite odict_lookup_set_eq. split; [done |]. split.
  - apply odict_keys_set_present.
    destruct (decide (distro ∈ odict_keys reg)) as [|Hn]; [done |].
    apply odict_lookup_None in Hn. congruence.
  - intros other Hne. rewrite odict_lookup_set_ne by done.
    rewrite odict_keys_set_present; [done |].
    destruct (decide (distro ∈ odict_keys reg)) as [|Hn]; [done |].
    apply odict_lookup_None in Hn. congruence.
Qed.

Lemma Distro_init_last_write_wins_witness :
  Distro_get (Distro_init ArchLinuxLike "debian:buster" initial_registry).2 "debian:buster"
  = Ok (mkDistro ArchLinuxLike "debian:buster").
Proof.
  pose proof (Distro_init_last_write_wins initial_registry ArchLinuxLike
                "debian:buster" debian_buster eq_refl) as H.
  simpl in H. apply H.
Defined.

(** C9.  [list-host-archs debian:buster] finds the distribution and prints
    its six host architectures, in the order of the source, one per line. *)
Theorem list_host_archs_debian_buster :
  Distro_get initial_registry "debian:buster" = Ok debian_buster
  ∧ host_archs (cls debian_buster)
    = ["amd64"; "i386"; "arm32v7"; "arm64v8"; "ppc64le"; "s390x"]
  ∧ ∀ w, main initial_registry (list_host_archs "debian:buster") w
         = (mkWorld (files w)
              (stdout w ++
                 [join (String "010" "")
                    ["amd64"; "i386"; "arm32v7"; "arm64v8"; "ppc64le"; "s390x"]])%list,
            Ok tt).
Proof. split; [reflexivity |]. split; [reflexivity |]. intros w. reflexivity. Qed.

(* ===================================================================== *)
(** ** The context builder *)
(* ===================================================================== *)

(** Case analysis on the tests and the calls of a computation that is known
    to return, innermost first. *)
Ltac result_step :=
  match goal with
  | H : Raise _ = Ok _ |- _ => discriminate H
  | H : Ok _ = Ok _ |- _ => injection H as <-
  | H : context [if ?b then _ else _] |- _ =>
      lazymatch b with
      | context [match _ with _ => _ end] => fail
      | _ => destruct b eqn:?; simpl in H
      end
  | H : context [match ?x with Ok _ => _ | Raise _ => _ end] |- _ =>
      lazymatch x with
      | context [match _ with _ => _ end] => fail
      | _ => destruct x eqn:?; simpl in H
      end
  end.

Ltac result_cases H :=
  unfold mbind, mret, result_bind, result_ret in H; simpl in H;
  repeat result_step.

Lemma Distro_get_template_context_unfold (self : Distro) (kwargs : strdict) :
  Distro_get_template_context self kwargs =
  let context := base_context self kwargs in
  let host_arch := dict_get context "host_arch" in
  let client_arch := dict_get context "client_arch" in
  if truthy client_arch then
    host_port ← getitem (ports_by_arch (cls self)) client_arch;
    let toolchain :=
      match client_arch with
      | VStr a => from_option VStr VNone (toolchains_by_arch (cls self) !! a)
      | _ => VNone
      end in
    let context :=
      <["toolchain" := toolchain]> (<["host_port" := VInt host_port]> context) in
    if truthy host_arch then
      part ← get_compiler_path_part_by_arch self host_arch client_arch;
      Ok (<["compiler_path_part" := part]> context)
    else Ok context
  else Ok context.
Proof. reflexivity. Qed.

(** The first statements of the builder touch three keys only. *)
Lemma base_context_lookup_ne (self : Distro) (kwargs : strdict) (k : string) :
  k ≠ "distro" → k ≠ "distro_slug" → k ≠ "tag" →
  base_context self kwargs !! k = kwargs !! k.
Proof.
  intros H1 H2 H3. unfold base_context.
  destruct (truthy _); by rewrite ?lookup_insert_ne by done.
Qed.

Lemma base_context_tag (self : Distro) (kwargs : strdict) :
  base_context self kwargs !! "tag"
  = Some (if truthy (dict_get kwargs "tag") then dict_get kwargs "tag"
          else VStr "devel").
Proof.
  unfold base_context, dict_get.
  rewrite !lookup_insert_ne by done.
  destruct (kwargs !! "tag") as [v|] eqn:E; simpl.
  - destruct (truthy v); [| by rewrite lookup_insert_eq].
    by rewrite !lookup_insert_ne, E by done.
  - by rewrite lookup_insert_eq.
Qed.

(** A falsy tag is the same as no tag. *)
Lemma base_context_delete_tag (self : Distro) (kwargs : strdict) :
  truthy (dict_get kwargs "tag") = false →
  base_context self kwargs = base_context self (delete "tag" kwargs).
Proof.
  intros Hf. unfold base_context, dict_get in *.
  rewrite !lookup_insert_ne by done. rewrite Hf.
  rewrite lookup_delete_eq. simpl.
  apply map_eq. intros k.
  destruct (decide (k = "tag")) as [->|Ht]; [by rewrite !lookup_insert_eq |].
  rewrite !(lookup_insert_ne _ "tag") by done.
  destruct (decide (k = "distro_slug")) as [->|Hs]; [by rewrite !lookup_insert_eq |].
  rewrite !(lookup_insert_ne _ "distro_slug") by done.
  destruct (decide (k = "distro")) as [->|Hd]; [by rewrite !lookup_insert_eq |].
  rewrite !(lookup_insert_ne _ "distro") by done.
  by rewrite lookup_delete_ne.
Qed.

(** The base builder only adds the keys [host_port], [toolchain] and
    [compiler_path_part] to the base context. *)
Lemma Distro_get_template_context_lookup
  (self : Distro) (kwargs context : strdict) (k : string) :
  Distro_get_template_context self kwargs = Ok context →
  k ≠ "host_port" → k ≠ "toolchain" → k ≠ "compiler_path_part" →
  context !! k = base_context self kwargs !! k.
Proof.
  rewrite Distro_get_template_context_unfold. cbv zeta.
  intros H H1 H2 H3.
  destruct (truthy (dict_get _ "client_arch")); [| by inversion H].
  destruct (getitem _ _) as [p|]; simpl in H; [| done].
  destruct (truthy (dict_get _ "host_arch")).
  - destruct (get_compiler_path_part_by_arch _ _ _); simpl in H; [| done].
    inversion H. by rewrite !lookup_insert_ne by done.
  - inversion H. by rewrite !lookup_insert_ne by done.
Qed.

(** Neither subclass builder touches the tag. *)
Lemma get_template_context_tag (self : Distro) (kwargs context : strdict) :
  get_template_context self kwargs = Ok context →
  context !! "tag" = base_context self kwargs !! "tag".
Proof.
  unfold get_template_context, DebianLike_get_template_context,
    ArchLinuxLike_get_template_context.
  intros H.
  destruct (Distro_get_template_context self kwargs) as [c0|] eqn:E0;
    [| by destruct (cls self)].
  rewrite <- (Distro_get_template_context_lookup _ _ _ "tag" E0) by done.
  destruct (cls self); result_cases H; by rewrite ?lookup_insert_ne by done.
Qed.

(** Without architectures the builder returns the base context. *)
Lemma get_template_context_no_archs (self : Distro) (kwargs : strdict) :
  truthy (dict_get kwargs "host_arch") = false →
  truthy (dict_get kwargs "client_arch") = false →
  get_template_context self kwargs = Ok (base_context self kwargs).
Proof.
  intros Hh Hc.
  assert (Hh' : truthy (dict_get (base_context self kwargs) "host_arch") = false).
  { unfold dict_get in *. by rewrite base_context_lookup_ne. }
  assert (Hc' : truthy (dict_get (base_context self kwargs) "client_arch") = false).
  { unfold dict_get in *. by rewrite base_context_lookup_ne. }
  unfold get_template_context, DebianLike_get_template_context,
    ArchLinuxLike_get_template_context.
  rewrite Distro_get_template_context_unfold. cbv zeta. rewrite Hc'.
  destruct (cls self); simpl; rewrite Hc'; simpl; by rewrite Hh'.
Qed.

(** C10.  A call whose tag is falsy (the empty string, zero, [None]) gives
    what the call without a tag gives, with the tag [devel]; a truthy tag is
    kept; and a call that names no architecture returns. *)
Theorem get_template_context_tag_default (self : Distro) (kwargs : strdict) :
  (truthy (dict_get kwargs "tag") = false →
   get_template_context self kwargs
   = get_template_context self (delete "tag" kwargs)
   ∧ ∀ context, get_template_context self kwargs = Ok context →
                context !! "tag" = Some (VStr "devel"))
  ∧ (truthy (dict_get kwargs "tag") = true →
     ∀ context, get_template_context self kwargs = Ok context →
                context !! "tag" = kwargs !! "tag")
  ∧ (truthy (dict_get kwargs "host_arch") = false →
     truthy (dict_get kwargs "client_arch") = false →
     ∃ context, get_template_context self kwargs = Ok context).
Proof.
  split; [| split].
  - intros Hf. split.
    + unfold get_template_context, DebianLike_get_template_context,
        ArchLinuxLike_get_template_context.
      rewrite !Distro_get_template_context_unfold.
      by rewrite (base_context_delete_tag _ _ Hf).
    + intros context H. rewrite (get_template_context_tag _ _ _ H).
      by rewrite base_context_tag, Hf.
  - intros Ht context H. rewrite (get_template_context_tag _ _ _ H).
    rewrite base_context_tag, Ht. unfold dict_get in *.
    by destruct (kwargs !! "tag").
  - intros Hh Hc. eexists. by apply get_template_context_no_archs.
Qed.

(** C10 at [tag=''], [tag=None] and [tag='v1'] for [debian:buster]. *)
Lemma get_template_context_tag_default_witness :
  get_template_context debian_buster {["tag" := VStr ""]}
  = get_template_context debian_buster ∅
  ∧ (∃ context, get_template_context debian_buster {["tag" := VNone]} = Ok context
                ∧ context !! "tag" = Some (VStr "devel"))
  ∧ (∃ context, get_template_context debian_buster {["tag" := VStr "v1"]} = Ok context
                ∧ context !! "tag" = Some (VStr "v1")).
Proof.
  split; [| split].
  - destruct (get_template_context_tag_default debian_buster {["tag" := VStr ""]})
      as [H _].
    destruct (H eq_refl) as [E _]. rewrite E. by rewrite delete_singleton_eq.
  - destruct (get_template_context_tag_default debian_buster {["tag" := VNone]})
      as (H & _ & T).
    destruct (T eq_refl eq_refl) as [context E]. exists context. split; [done |].
    by apply (H eq_refl).
  - destruct (get_template_context_tag_default debian_buster {["tag" := VStr "v1"]})
      as (_ & H & T).
    destruct (T eq_refl eq_refl) as [context E]. exists context. split; [done |].
    by rewrite (H eq_refl context E).
Defined.

Lemma truthy_VStr (s : string) : truthy (VStr s) = true ↔ s ≠ "".
Proof.
  simpl. destruct (String.eqb_spec s ""); simpl; split; congruence.
Qed.

(** C4, as amended.  A non-empty client architecture without an entry in
    [ports_by_arch] makes the builder raise [KeyError] for it; no port is
    substituted. *)
Theorem get_template_context_missing_port
  (self : Distro) (kwargs : strdict) (client_arch : string) :
  client_arch ≠ "" → missing_port_raises self kwargs client_arch.
Proof.
  intros Hne Hk Hp.
  assert (Hc : dict_get (base_context self kwargs) "client_arch" = VStr client_arch).
  { unfold dict_get. by rewrite base_context_lookup_ne, Hk. }
  assert (E : Distro_get_template_context self kwargs
              = Raise (KeyError (VStr client_arch))).
  { rewrite Distro_get_template_context_unfold. cbv zeta. rewrite Hc.
    apply truthy_VStr in Hne. rewrite Hne. simpl. by rewrite Hp. }
  unfold get_template_context, DebianLike_get_template_context,
    ArchLinuxLike_get_template_context.
  rewrite E. by destruct (cls self).
Qed.

Lemma get_template_context_missing_port_witness :
  get_template_context archlinux {["client_arch" := VStr "s390x"]}
  = Raise (KeyError (VStr "s390x")).
Proof.
  apply (get_template_context_missing_port archlinux
           {["client_arch" := VStr "s390x"]} "s390x"); done.
Defined.

(** C4 as stated fails for the empty client architecture: it has no port,
    and the builder returns a context without [host_port]. *)
Lemma empty_client_arch_does_not_raise :
  ports_by_arch (cls debian_buster) !! "" = None
  ∧ (∃ context,
       get_template_context debian_buster {["client_arch" := VStr ""]} = Ok context
       ∧ context !! "host_port" = None)
  ∧ ¬ missing_port_raises debian_buster {["client_arch" := VStr ""]} "".
Proof.
  assert (E : match get_template_context debian_buster
                      {["client_arch" := VStr ""]} with
              | Ok context => bool_decide (context !! "host_port" = None)
              | Raise _ => false
              end = true) by (vm_compute; reflexivity).
  split; [vm_compute; reflexivity |].
  destruct (get_template_context debian_buster {["client_arch" := VStr ""]})
    as [context|] eqn:E'; [| discriminate E].
  apply bool_decide_eq_true in E. split.
  - by exists context.
  - intros H. unfold missing_port_raises in H. rewrite E' in H.
    assert (Hp : ports_by_arch (cls debian_buster) !! "" = None)
      by (vm_compute; reflexivity).
    specialize (H (lookup_singleton_eq _ _) Hp). discriminate H.
Qed.

Lemma both_archs_host (h c : string) (kwargs : strdict) :
  both_archs h c kwargs !! "host_arch" = Some (VStr h).
Proof. unfold both_archs. by rewrite lookup_insert_eq. Qed.

Lemma both_archs_client (h c : string) (kwargs : strdict) :
  both_archs h c kwargs !! "client_arch" = Some (VStr c).
Proof.
  unfold both_archs. by rewrite lookup_insert_ne, lookup_insert_eq by done.
Qed.

(** The base builder on a call with both architectures, when the client has
    a port and the fragment is computed. *)
Lemma Distro_get_template_context_both
  (self : Distro) (h c : string) (kwargs : strdict) (port : Z) (part : value) :
  h ≠ "" → c ≠ "" →
  ports_by_arch (cls self) !! c = Some port →
  get_compiler_path_part_by_arch self (VStr h) (VStr c) = Ok part →
  ∃ context,
    Distro_get_template_context self (both_archs h c kwargs) = Ok context
    ∧ context !! "compiler_path_part" = Some part
    ∧ dict_get context "host_arch" = VStr h
    ∧ dict_get context "client_arch" = VStr c.
Proof.
  intros Hh Hc Hp Hpart.
  rewrite Distro_get_template_context_unfold. cbv zeta.
  assert (E1 : dict_get (base_context self (both_archs h c kwargs)) "client_arch"
               = VStr c).
  { unfold dict_get. by rewrite base_context_lookup_ne, both_archs_client. }
  assert (E2 : dict_get (base_context self (both_archs h c kwargs)) "host_arch"
               = VStr h).
  { unfold dict_get. by rewrite base_context_lookup_ne, both_archs_host. }
  rewrite E1, E2. apply truthy_VStr in Hh, Hc. rewrite Hh, Hc.
  simpl. rewrite Hp. simpl. rewrite Hpart. simpl.
  eexists. split; [reflexivity |].
  unfold dict_get in *.
  rewrite lookup_insert_eq. rewrite !lookup_insert_ne by done.
  by destruct (base_context _ _ !! "host_arch"), (base_context _ _ !! "client_arch");
    simplify_eq.
Qed.

(** The same for the builder of the instance's class, when the tables of
    the class have what it looks up. *)
Lemma get_template_context_both
  (self : Distro) (h c : string) (kwargs : strdict) (port : Z) (part : value) :
  h ≠ "" → c ≠ "" →
  ports_by_arch (cls self) !! c = Some port →
  get_compiler_path_part_by_arch self (VStr h) (VStr c) = Ok part →
  match cls self with
  | DebianLike =>
      is_Some (flags_by_arch !! c)
      ∧ ∃ packages, get_apt_packages_by_host_arch (VStr h) = Ok packages
  | ArchLinuxLike =>
      is_Some (images_by_arch !! c) ∧ is_Some (images_by_arch !! h)
  end →
  ∃ context,
    get_template_context self (both_archs h c kwargs) = Ok context
    ∧ context !! "compiler_path_part" = Some part.
Proof.
  intros Hh Hc Hp Hpart Htab.
  destruct (Distro_get_template_context_both self h c kwargs port part)
    as (c0 & E0 & Hl & Eh & Ec); [done.. |].
  unfold get_template_context, DebianLike_get_template_context,
    ArchLinuxLike_get_template_context.
  rewrite E0. apply truthy_VStr in Hh, Hc.
  destruct (cls self); simpl; rewrite Ec, Hc; simpl.
  - destruct Htab as [[fl Hfl] [pk Hpk]]. rewrite Hfl. simpl.
    rewrite Eh, Hh, Hpk. simpl.
    eexists. split; [reflexivity |]. by rewrite !lookup_insert_ne by done.
  - destruct Htab as [[ci Hci] [hi Hhi]]. rewrite Hci. simpl.
    rewrite Eh, Hh. simpl. rewrite Hhi. simpl.
    eexists. split; [reflexivity |]. by rewrite !lookup_insert_ne by done.
Qed.

(** Membership in a list given by its elements, one case per element. *)
Ltac list_cases H :=
  repeat (apply elem_of_cons in H as [-> | H]); [.. | by apply elem_of_nil in H].

(** An entry of a table written out as a list is one of the list. *)
Ltac table_cases H :=
  apply elem_of_list_to_map_2 in H;
  repeat (apply elem_of_cons in H as [[= -> ->] | H]);
  [.. | by apply elem_of_nil in H].

(** The fragment for different architectures, when the client has a
    toolchain: no toolchain path of the tables is absolute under
    [/usr/local/] or ends with a slash, so the joins put the parts one after
    the other. *)
Lemma get_compiler_path_part_by_arch_toolchain
  (self : Distro) (h c toolchain : string) :
  h ≠ c →
  toolchains_by_arch (cls self) !! c = Some toolchain →
  get_compiler_path_part_by_arch self (VStr h) (VStr c)
  = Ok (VStr (toolchain_root (cls self) +:+ toolchain +:+ "/bin:"))
  ∧ toolchain_root (cls self) +:+ toolchain +:+ "/bin:" ≠ "".
Proof.
  intros Hne Ht. unfold get_compiler_path_part_by_arch.
  rewrite decide_False by congruence. unfold getitem. rewrite Ht. simpl.
  destruct (cls self); unfold toolchains_by_arch in Ht; cbv beta iota in Ht;
    table_cases Ht; by split.
Qed.

Lemma get_compiler_path_part_by_arch_missing (self : Distro) (h c : string) :
  h ≠ c →
  toolchains_by_arch (cls self) !! c = None →
  get_compiler_path_part_by_arch self (VStr h) (VStr c)
  = Raise (KeyError (VStr c)).
Proof.
  intros Hne Ht. unfold get_compiler_path_part_by_arch.
  rewrite decide_False by congruence. unfold getitem. by rewrite Ht.
Qed.

Lemma get_compiler_path_part_by_arch_same (self : Distro) (h : string) :
  get_compiler_path_part_by_arch self (VStr h) (VStr h) = Ok (VStr "").
Proof. unfold get_compiler_path_part_by_arch. by rewrite decide_True. Qed.

(** The packages of a host architecture: every compiler of the table has
    its packages, so only the host architecture can be missing. *)
Lemma get_apt_packages_by_host_arch_cases (h : string) :
  match compilers_by_host_arch DebianLike !! h with
  | Some _ => ∃ packages, get_apt_packages_by_host_arch (VStr h) = Ok packages
  | None => get_apt_packages_by_host_arch (VStr h) = Raise (KeyError (VStr h))
  end.
Proof.
  destruct (compilers_by_host_arch DebianLike !! h) as [l|] eqn:E.
  - unfold compilers_by_host_arch in E. cbv beta iota in E.
    table_cases E; by eexists.
  - unfold get_apt_packages_by_host_arch, getitem. by rewrite E.
Qed.

Lemma get_template_context_base_raise (self : Distro) (kwargs : strdict)
  (e : exn) :
  Distro_get_template_context self kwargs = Raise e →
  get_template_context self kwargs = Raise e.
Proof.
  intros E. unfold get_template_context, DebianLike_get_template_context,
    ArchLinuxLike_get_template_context.
  rewrite E. by destruct (cls self).
Qed.

(** The base builder on a call with both architectures raises what the
    lookup of the port or of the fragment raises. *)
Lemma Distro_get_template_context_both_raise
  (self : Distro) (h c : string) (kwargs : strdict) (e : exn) :
  h ≠ "" → c ≠ "" →
  (port ← getitem (ports_by_arch (cls self)) (VStr c);
   get_compiler_path_part_by_arch self (VStr h) (VStr c)) = Raise e →
  Distro_get_template_context self (both_archs h c kwargs) = Raise e.
Proof.
  intros Hh Hc H.
  rewrite Distro_get_template_context_unfold. cbv zeta.
  assert (E1 : dict_get (base_context self (both_archs h c kwargs)) "client_arch"
               = VStr c).
  { unfold dict_get. by rewrite base_context_lookup_ne, both_archs_client. }
  assert (E2 : dict_get (base_context self (both_archs h c kwargs)) "host_arch"
               = VStr h).
  { unfold dict_get. by rewrite base_context_lookup_ne, both_archs_host. }
  rewrite E1, E2. apply truthy_VStr in Hh, Hc. rewrite Hh, Hc.
  destruct (getitem (ports_by_arch (cls self)) (VStr c)) as [port|e'];
    simpl in H |- *; [| by injection H as ->].
  by rewrite H.
Qed.

(** The builder of the instance's class after the base builder returned. *)
Lemma get_template_context_after_base
  (self : Distro) (h c : string) (kwargs c0 : strdict) :
  h ≠ "" → c ≠ "" →
  Distro_get_template_context self kwargs = Ok c0 →
  dict_get c0 "host_arch" = VStr h →
  dict_get c0 "client_arch" = VStr c →
  match cls self with
  | DebianLike =>
      match flags_by_arch !! c, compilers_by_host_arch DebianLike !! h with
      | None, _ => get_template_context self kwargs = Raise (KeyError (VStr c))
      | Some _, None =>
          get_template_context self kwargs = Raise (KeyError (VStr h))
      | Some _, Some _ => True
      end
  | ArchLinuxLike =>
      match images_by_arch !! c, images_by_arch !! h with
      | None, _ => get_template_context self kwargs = Raise (KeyError (VStr c))
      | Some _, None =>
          get_template_context self kwargs = Raise (KeyError (VStr h))
      | Some _, Some _ => True
      end
  end.
Proof.
  intros Hh Hc E0 Eh Ec. apply truthy_VStr in Hh, Hc.
  pose proof (get_apt_packages_by_host_arch_cases h) as Hp.
  unfold get_template_context, DebianLike_get_template_context,
    ArchLinuxLike_get_template_context, getitem.
  rewrite E0. destruct (cls self).
  - remember (compilers_by_host_arch DebianLike) as T.
    simpl. rewrite Ec, Hc.
    destruct (flags_by_arch !! c) as [fl|]; simpl; [| done].
    rewrite Eh, Hh. destruct (T !! h) as [l|]; [done |]. by rewrite Hp.
  - simpl. rewrite Ec, Hc.
    destruct (images_by_arch !! c) as [ci|]; simpl; [| done].
    rewrite Eh, Hh. by destruct (images_by_arch !! h) as [hi|].
Qed.

Lemma tables_have_registered (self : Distro) (h c : string) :
  h ∈ host_archs (cls self) → c ∈ client_archs (cls self) →
  tables_have self h c = true.
Proof.
  intros Hh Hc. unfold tables_have.
  destruct (cls self); simpl in Hh, Hc; list_cases Hh; list_cases Hc;
    vm_compute; reflexivity.
Qed.

(** To the letter implies as stated. *)
Lemma compiler_path_part_exact_as_stated
  (self : Distro) (h c : string) (kwargs : strdict) :
  compiler_path_part_exact self h c kwargs →
  compiler_path_part_as_stated self h c kwargs.
Proof.
  intros (context & part & E & Hl & Heq & Hne).
  exists context, part. split; [done |]. split; [done |]. split; [done |].
  intros H. destruct (Hne H) as (Hpart & toolchain & Ht & ->).
  split; [done |]. exists toolchain. split; [done |].
  exists (toolchain_root (cls self)), "". by rewrite app_empty_r.
Qed.

(** C2, as amended.  For non-empty host and client architectures, whatever
    else is passed: when the tables of the class hold what the builder looks
    up, the builder returns and the compiler-path fragment is empty for equal
    architectures and otherwise the client's toolchain path followed by
    [/bin:], under [/usr/local/] for the Debian family; when they do not, the
    builder raises [KeyError] for one of the two architectures; and the
    tables hold it for every host architecture and client architecture of
    the distribution's own lists. *)
Theorem compiler_path_part_spec
  (self : Distro) (host_arch client_arch : string) (kwargs : strdict) :
  host_arch ≠ "" → client_arch ≠ "" →
  (tables_have self host_arch client_arch = true →
   compiler_path_part_exact self host_arch client_arch kwargs)
  ∧ (tables_have self host_arch client_arch = false →
     ∃ k, k ∈ [host_arch; client_arch]
          ∧ get_template_context self (both_archs host_arch client_arch kwargs)
            = Raise (KeyError (VStr k)))
  ∧ (host_arch ∈ host_archs (cls self) →
     client_arch ∈ client_archs (cls self) →
     tables_have self host_arch client_arch = true).
Proof.
  intros Hh Hc. split; [| split; [| apply tables_have_registered]].
  - intros H. unfold tables_have in H.
    apply andb_true_iff in H as [H Hfam]. apply andb_true_iff in H as [Hp Ht].
    apply bool_decide_eq_true in Hp as [port Hp].
    assert (Hpart : ∃ part,
      get_compiler_path_part_by_arch self (VStr host_arch) (VStr client_arch)
      = Ok (VStr part)
      ∧ (host_arch = client_arch → part = "")
      ∧ (host_arch ≠ client_arch →
         part ≠ ""
         ∧ ∃ toolchain,
             toolchains_by_arch (cls self) !! client_arch = Some toolchain
             ∧ part = toolchain_root (cls self) +:+ toolchain +:+ "/bin:")).
    { destruct (decide (host_arch = client_arch)) as [<- | Hne].
      - exists "". split; [apply get_compiler_path_part_by_arch_same |]. done.
      - apply orb_true_iff in Ht as [Ht | Ht];
          [by apply bool_decide_eq_true in Ht |].
        apply bool_decide_eq_true in Ht as [toolchain Ht].
        destruct (get_compiler_path_part_by_arch_toolchain self _ _ _ Hne Ht)
          as [E Hnonempty].
        eexists. split; [exact E |]. split; [done |]. intros _.
        split; [done |]. by exists toolchain. }
    destruct Hpart as (part & Epart & Hsame & Hdiff).
    destruct (get_template_context_both self host_arch client_arch kwargs
                port (VStr part)) as (context & E & Hl); [done.. | |].
    { pose proof (get_apt_packages_by_host_arch_cases host_arch) as Hpk.
      destruct (cls self); apply andb_true_iff in Hfam as [H1 H2];
        apply bool_decide_eq_true in H1, H2; [| done].
      split; [done |]. destruct H2 as [l H2]. by rewrite H2 in Hpk. }
    by exists context, part.
  - intros H.
    destruct (ports_by_arch (cls self) !! client_arch) as [port|] eqn:Hp.
    2:{ exists client_arch. split; [right; left |].
        apply get_template_context_base_raise,
          Distro_get_template_context_both_raise; [done.. |].
        unfold getitem. by rewrite Hp. }
    destruct (get_compiler_path_part_by_arch self (VStr host_arch)
                (VStr client_arch)) as [part|e] eqn:Epart.
    2:{ exists client_arch. split; [right; left |].
        apply get_template_context_base_raise,
          Distro_get_template_context_both_raise; [done.. |].
        unfold getitem. rewrite Hp. simpl. rewrite Epart. f_equal.
        destruct (decide (host_arch = client_arch)) as [<- | Hne];
          [by rewrite get_compiler_path_part_by_arch_same in Epart |].
        destruct (toolchains_by_arch (cls self) !! client_arch) as [t|] eqn:Ht.
        - destruct (get_compiler_path_part_by_arch_toolchain self _ _ _ Hne Ht)
            as [E _]. congruence.
        - rewrite get_compiler_path_part_by_arch_missing in Epart by done.
          congruence. }
    assert (Ht : bool_decide (host_arch = client_arch)
                 || bool_decide (is_Some (toolchains_by_arch (cls self)
                                            !! client_arch)) = true).
    { destruct (decide (host_arch = client_arch)) as [-> | Hne];
        [by rewrite bool_decide_eq_true_2 |].
      destruct (toolchains_by_arch (cls self) !! client_arch) as [t|] eqn:Ht.
      - by rewrite orb_true_r.
      - rewrite get_compiler_path_part_by_arch_missing in Epart by done.
        discriminate Epart. }
    unfold tables_have in H. rewrite Hp, Ht in H.
    rewrite bool_decide_eq_true_2 in H by (by eexists).
    rewrite !andb_true_l in H.
    destruct (Distro_get_template_context_both self host_arch client_arch kwargs
                port part) as (c0 & E0 & _ & Eh & Ec); [done.. |].
    pose proof (get_template_context_after_base self host_arch client_arch
                  _ c0 Hh Hc E0 Eh Ec) as Hfam.
    destruct (cls self).
    + destruct (flags_by_arch !! client_arch);
        [| exists client_arch; split; [right; left | done]].
      destruct (compilers_by_host_arch DebianLike !! host_arch);
        [by vm_compute in H | exists host_arch; split; [left | done]].
    + destruct (images_by_arch !! client_arch);
        [| exists client_arch; split; [right; left | done]].
      destruct (images_by_arch !! host_arch);
        [by vm_compute in H | exists host_arch; split; [left | done]].
Qed.

(** C2 as amended at [debian:buster] with host [amd64] and client [i386],
    and at [archlinux] with host [arm64v8], which is outside its list of
    host architectures: with client [arm32v7] the fragment is the toolchain
    path followed by [/bin:], with client [amd64] the builder raises. *)
Lemma compiler_path_part_spec_witness :
  compiler_path_part_exact debian_buster "amd64" "i386" {["tag" := VStr "v1"]}
  ∧ compiler_path_part_exact archlinux "arm64v8" "arm32v7" ∅
  ∧ ∃ k, k ∈ ["arm64v8"; "amd64"]
         ∧ get_template_context archlinux (both_archs "arm64v8" "amd64" ∅)
           = Raise (KeyError (VStr k)).
Proof.
  split; [| split].
  - apply (compiler_path_part_spec debian_buster "amd64" "i386"); [done.. |].
    vm_compute. reflexivity.
  - apply (compiler_path_part_spec archlinux "arm64v8" "arm32v7"); [done.. |].
    vm_compute. reflexivity.
  - apply (compiler_path_part_spec archlinux "arm64v8" "amd64"); [done.. |].
    vm_compute. reflexivity.
Defined.

(** C2 as stated fails where a table lacks an entry: for [archlinux], host
    [arm64v8] and client [amd64] the builder raises [KeyError], since
    [amd64] has no toolchain. *)
Lemma compiler_path_part_missing_toolchain :
  get_template_context archlinux (both_archs "arm64v8" "amd64" ∅)
  = Raise (KeyError (VStr "amd64"))
  ∧ ¬ compiler_path_part_as_stated archlinux "arm64v8" "amd64" ∅.
Proof.
  assert (E : get_template_context archlinux (both_archs "arm64v8" "amd64" ∅)
              = Raise (KeyError (VStr "amd64"))) by (vm_compute; reflexivity).
  split; [exact E |].
  intros (context & part & H & _). rewrite E in H. discriminate H.
Qed.

(* ===================================================================== *)
(** ** Sequencing in [io] *)
(* ===================================================================== *)

(** A sequence that returns: both parts returned, one after the other. *)
Lemma io_bind_Ok {A B} (m : io A) (f : A → io B) (w w' : world) (b : B) :
  (m ≫= f) w = (w', Ok b) → ∃ w1 a, m w = (w1, Ok a) ∧ f a w1 = (w', Ok b).
Proof.
  unfold mbind, io_bind. destruct (m w) as [w1 [a|e]]; [by eauto | done].
Qed.

Lemma io_bind_step {A B} (m : io A) (f : A → io B) (w w1 : world) (a : A) :
  m w = (w1, Ok a) → (m ≫= f) w = f a w1.
Proof. unfold mbind, io_bind. by intros ->. Qed.

Lemma io_bind_raise {A B} (m : io A) (f : A → io B) (w w1 : world) (e : exn) :
  m w = (w1, Raise e) → (m ≫= f) w = (w1, Raise e).
Proof. unfold mbind, io_bind. by intros ->. Qed.

(* ===================================================================== *)
(** ** The template renderer *)
(* ===================================================================== *)

Lemma get_field_python_exception (n : string) (context : strdict) (e : exn) :
  get_field n context = Raise e → python_exception e.
Proof.
  unfold get_field. destruct (get_integer 0 n); [| by intros [= <-]..].
  destruct (context !! n); [done | by intros [= <-]].
Qed.

Lemma get_field_missing (n : string) (context : strdict) :
  context !! n = None → ∃ e, get_field n context = Raise e.
Proof.
  intros H. unfold get_field. rewrite H. destruct (get_integer 0 n); by eexists.
Qed.

Lemma get_field_union (n : string) (extra context : strdict) :
  extra !! n = None → get_field n (extra ∪ context) = get_field n context.
Proof.
  intros H. unfold get_field. by rewrite lookup_union_r.
Qed.

(** A replacement field that the scanner reaches and the context does not
    bind stops the formatting with an exception of Python. *)
Lemma format_go_missing (s : string) (st : scan_state) (context : strdict)
  (k : string) :
  k ∈ fields_go st s → context !! k = None →
  ∃ e, format_go st s context = Raise e ∧ python_exception e.
Proof.
  intros Hin Hk. revert st Hin.
  assert (Hfield : ∀ n r,
    (k ∈ fields_go InText r →
     ∃ e, format_go InText r context = Raise e ∧ python_exception e) →
    k ∈ n :: fields_go InText r →
    ∃ e, (v ← get_field n context;
          String.app (str_of v) <$> format_go InText r context) = Raise e
         ∧ python_exception e).
  { intros n r IH Hin. apply elem_of_cons in Hin as [-> | Hin].
    - destruct (get_field_missing n context Hk) as [e E].
      exists e. rewrite E. split; [done |].
      by apply (get_field_python_exception n context).
    - destruct (get_field n context) as [v|e] eqn:E.
      + destruct (IH Hin) as (e & E' & He). exists e. simpl. rewrite E'. done.
      + exists e. split; [done |]. by apply (get_field_python_exception n context). }
  induction s as [|c r IH]; intros st Hin; [by apply elem_of_nil in Hin |].
  destruct st as [| |n|]; simpl in *.
  - destruct (Ascii.eqb c "{"); [by apply IH |].
    destruct (Ascii.eqb c "}"); [by apply IH |].
    destruct (IH _ Hin) as (e & E & He). exists e. by rewrite E.
  - destruct (Ascii.eqb c "{").
    { destruct (IH _ Hin) as (e & E & He). exists e. by rewrite E. }
    destruct (Ascii.eqb c "}"); [by eexists |].
    destruct (field_step "" c); [by apply IH | by apply elem_of_nil in Hin].
  - destruct (Ascii.eqb c "}"); [by apply Hfield; [apply IH |] |].
    destruct (field_step n c); [by apply IH | by apply elem_of_nil in Hin].
  - destruct (Ascii.eqb c "}"); [| by apply elem_of_nil in Hin].
    destruct (IH _ Hin) as (e & E & He). exists e. by rewrite E.
Qed.

(** Keys that no reached replacement field names do not matter. *)
Lemma format_go_extra (s : string) (st : scan_state) (extra context : strdict) :
  (∀ k, k ∈ fields_go st s → extra !! k = None) →
  format_go st s (extra ∪ context) = format_go st s context.
Proof.
  revert st. induction s as [|c r IH]; intros st Hex; [done |].
  destruct st as [| |n|]; simpl in *.
  - destruct (Ascii.eqb c "{"); [by apply IH |].
    destruct (Ascii.eqb c "}"); [by apply IH |]. by rewrite IH.
  - destruct (Ascii.eqb c "{"); [by rewrite IH |].
    destruct (Ascii.eqb c "}"); [done |].
    destruct (field_step "" c); [by apply IH | done].
  - destruct (Ascii.eqb c "}").
    { rewrite get_field_union by (apply Hex; left).
      rewrite IH; [done |]. intros k Hk. apply Hex. by right. }
    destruct (field_step n c); [by apply IH | done].
  - destruct (Ascii.eqb c "}"); [by rewrite IH | done].
Qed.

(** [render] up to the formatting of the template. *)
Lemma render_unfold (template out : string) (context : strdict) (w : world)
  (text : string) :
  stat (files w) template = Some (File text) →
  render template out context w =
  match str_format text context with
  | Raise e => (w, Raise e)
  | Ok rendered =>
      ((e ← path_exists (dirname out);
        (if e : bool then mret tt else makedirs (dirname out));;
        write_file out rendered;;
        print ("Wrote " +:+ out);;
        mret out) : io string) w
  end.
Proof.
  intros H. unfold render, mbind, io_bind, read_file, lift. rewrite H.
  by destruct (str_format text context).
Qed.

(** What [render] returns, when it returns, is the output path. *)
Lemma render_returns_out (template out : string) (context : strdict)
  (w w' : world) (r : string) :
  render template out context w = (w', Ok r) → r = out.
Proof.
  unfold render. intros H.
  repeat (apply io_bind_Ok in H as (? & ? & _ & H)).
  by injection H as _ <-.
Qed.

(* ===================================================================== *)
(** ** Cleaning *)
(* ===================================================================== *)

(** C8.  [clean] removes the output directory and everything below it and
    leaves the rest, when the output directory is there; when nothing is at
    the output path it raises [FileNotFoundError] and changes nothing. *)
Theorem clean_spec (self : Distro) (w : world) :
  (stat (files w) (out_path self) = Some Directory →
   ∃ w', clean self w = (w', Ok tt)
         ∧ files w' !! out_path self = None
         ∧ (∀ p, below (out_path self) p = true → files w' !! p = None)
         ∧ (∀ p, p ≠ out_path self → below (out_path self) p = false →
                 files w' !! p = files w !! p))
  ∧ (stat (files w) (out_path self) = None →
     clean self w = (w, Raise (FileNotFoundError (out_path self)))).
Proof.
  unfold clean, rmtree, mbind, io_bind. split; intros H; rewrite H; [| done].
  eexists. split; [reflexivity |]. simpl. split; [| split].
  - apply map_lookup_filter_None. right. intros n _ [Hne _]. done.
  - intros p Hp. apply map_lookup_filter_None. right. intros n _ [_ Hb].
    congruence.
  - intros p Hne Hb. destruct (files w !! p) as [n|] eqn:E.
    + by apply map_lookup_filter_Some.
    + apply map_lookup_filter_None. by left.
Qed.

(* ===================================================================== *)
(** ** File operations *)
(* ===================================================================== *)

Lemma grows_refl (fs : gmap string node) : grows fs fs.
Proof. intros p. by left. Qed.

Lemma grows_trans (fs1 fs2 fs3 : gmap string node) :
  grows fs1 fs2 → grows fs2 fs3 → grows fs1 fs3.
Proof.
  intros H12 H23 p. destruct (H12 p) as [E12 | [N1 D2]], (H23 p) as [E23 | [N2 D3]].
  - left. congruence.
  - rewrite <- E12. by right.
  - right. split; congruence.
  - congruence.
Qed.

Lemma grows_lookup_Some (fs fs' : gmap string node) (p : string) (n : node) :
  grows fs fs' → fs !! p = Some n → fs' !! p = Some n.
Proof. intros H E. destruct (H p) as [-> | [? _]]; congruence. Qed.

Lemma grows_insert_dir (fs : gmap string node) (p : string) :
  fs !! p = None → grows fs (<[p := Directory]> fs).
Proof.
  intros H q. destruct (decide (p = q)) as [<- | Hne].
  - right. by rewrite lookup_insert_eq.
  - left. by rewrite lookup_insert_ne.
Qed.

Lemma stat_Some (fs : gmap string node) (p : string) (n : node) :
  stat fs p = Some n ↔ p ≠ "" ∧ fs !! p = Some n.
Proof.
  unfold stat. destruct (decide (p = "")) as [-> | Hne].
  - split; [done | by intros [? _]].
  - split; [done | by intros [_ ?]].
Qed.

Lemma stat_grows (fs fs' : gmap string node) (p : string) (n : node) :
  grows fs fs' → stat fs p = Some n → stat fs' p = Some n.
Proof.
  rewrite !stat_Some. intros H [? E]. split; [done |].
  by apply (grows_lookup_Some fs).
Qed.

(** [os.mkdir] that returns has added one directory, at a free path whose
    parent is there. *)
Lemma mkdir_Ok (p : string) (w w' : world) :
  mkdir p w = (w', Ok tt) →
  p ≠ "" ∧ files w !! p = None ∧ check_parent (files w) p = Ok tt
  ∧ w' = mkWorld (<[p := Directory]> (files w)) (stdout w).
Proof.
  unfold mkdir. destruct (decide (p = "")); [done |].
  destruct (files w !! p); [done |].
  destruct (check_parent (files w) p) as [[]|]; [| done].
  by intros [= <-].
Qed.

Lemma mkdir_grows (p : string) (w : world) :
  grows (files w) (files (mkdir p w).1).
Proof.
  unfold mkdir. destruct (decide (p = "")); [apply grows_refl |].
  destruct (files w !! p) eqn:E; [apply grows_refl |].
  destruct (check_parent (files w) p); [| apply grows_refl].
  by apply grows_insert_dir.
Qed.

(** [os.mkdir] on a path that is taken raises. *)
Lemma mkdir_taken (p : string) (w : world) :
  is_Some (files w !! p) → ∃ e, mkdir p w = (w, Raise e).
Proof.
  intros [n E]. unfold mkdir. destruct (decide (p = "")); [by eexists |].
  rewrite E. by eexists.
Qed.

(** [os.makedirs] only adds directories, whether it returns or raises. *)
Lemma makedirs_fuel_grows (fuel : nat) (name : string) (w : world) :
  grows (files w) (files (makedirs_fuel fuel name w).1).
Proof.
  revert name w. induction fuel as [|fuel IH]; intros name w; [apply grows_refl |].
  simpl. destruct (path_split name) as [head tail].
  destruct (if decide (tail = "") then path_split head else (head, tail))
    as [head' tail'].
  destruct (decide (head' ≠ "" ∧ tail' ≠ "")); [| apply mkdir_grows].
  unfold mbind, io_bind, path_exists. simpl.
  destruct (bool_decide _); [apply mkdir_grows |].
  unfold except_FileExistsError_pass.
  pose proof (IH head' w) as Hg.
  destruct (makedirs_fuel fuel head' w) as [w1 [[]|e]]; simpl in *.
  - destruct (decide (tail' = ".")); [done |].
    eapply grows_trans; [exact Hg | apply mkdir_grows].
  - destruct e; try done.
    destruct (decide (tail' = ".")); [done |].
    eapply grows_trans; [exact Hg | apply mkdir_grows].
Qed.

Lemma makedirs_grows (name : string) (w : world) :
  grows (files w) (files (makedirs name w).1).
Proof. apply makedirs_fuel_grows. Qed.

(** [os.makedirs] of a name whose last component is neither empty nor a
    dot ends with [os.mkdir] of the name, unless it raised before. *)
Lemma makedirs_proper (name head tail : string) (w : world) :
  path_split name = (head, tail) → tail ≠ "" → tail ≠ "." →
  ∃ w1, grows (files w) (files w1)
        ∧ (makedirs name w = mkdir name w1
           ∨ ∃ e, makedirs name w = (w1, Raise e)).
Proof.
  intros Hs Ht Hd. unfold makedirs. simpl. rewrite Hs.
  rewrite decide_False by done.
  destruct (decide (head ≠ "" ∧ tail ≠ "")).
  - unfold mbind, io_bind, path_exists. simpl.
    destruct (bool_decide _).
    { exists w. split; [apply grows_refl | by left]. }
    unfold except_FileExistsError_pass.
    pose proof (makedirs_fuel_grows (String.length name) head w) as Hg.
    destruct (makedirs_fuel _ head w) as [w1 [[]|e]]; simpl in *.
    + rewrite decide_False by done. exists w1. split; [done | by left].
    + exists w1. split; [done |].
      destruct e; try (right; by eexists).
      rewrite decide_False by done. by left.
  - exists w. split; [apply grows_refl | by left].
Qed.

(** [os.makedirs] refuses a path that is taken. *)
Lemma makedirs_taken (name head tail : string) (w : world) :
  path_split name = (head, tail) → tail ≠ "" → tail ≠ "." →
  is_Some (files w !! name) →
  ∃ w' e, makedirs name w = (w', Raise e).
Proof.
  intros Hs Ht Hd [n Hn].
  destruct (makedirs_proper name head tail w Hs Ht Hd) as (w1 & Hg & [E | [e E]]).
  - destruct (mkdir_taken name w1) as [e E'].
    { exists n. by apply (grows_lookup_Some (files w)). }
    exists w1, e. by rewrite E.
  - by exists w1, e.
Qed.

(** [os.makedirs] that returns leaves the parent of the name a directory. *)
Lemma makedirs_Ok_parent (name head tail : string) (w w' : world) :
  path_split name = (head, tail) → tail ≠ "" → tail ≠ "." → head ≠ "" →
  makedirs name w = (w', Ok tt) →
  grows (files w) (files w') ∧ files w' !! head = Some Directory.
Proof.
  intros Hs Ht Hd Hh E.
  pose proof (makedirs_grows name w) as Hg. rewrite E in Hg. split; [done |].
  destruct (makedirs_proper name head tail w Hs Ht Hd) as (w1 & _ & [E1 | [e E1]]);
    [| congruence].
  rewrite E1 in E. apply mkdir_Ok in E as (Hne & Hfree & Hpar & ->). simpl.
  unfold check_parent, dirname in Hpar. rewrite Hs in Hpar. simpl in Hpar.
  rewrite decide_False in Hpar by done.
  destruct (files w1 !! head) as [[]|] eqn:Eh; try done.
  rewrite lookup_insert_ne; [done |]. intros <-. congruence.
Qed.

(** Writing a file that returns has stored the content at a path that is
    not a directory and whose parent is there. *)
Lemma write_file_Ok (p content : string) (w w' : world) :
  write_file p content w = (w', Ok tt) →
  p ≠ "" ∧ check_parent (files w) p = Ok tt
  ∧ files w !! p ≠ Some Directory
  ∧ w' = mkWorld (<[p := File content]> (files w)) (stdout w).
Proof.
  unfold write_file. destruct (decide (p = "")); [done |].
  destruct (check_parent (files w) p) as [[]|]; [| done].
  destruct (files w !! p) as [[]|]; try done; by intros [= <-].
Qed.

Lemma makedirs_empty (w : world) :
  makedirs "" w = (w, Raise (FileNotFoundError "")).
Proof. reflexivity. Qed.

(** A [render] that returns: the template was a file, its text formatted,
    directories may have been added, and the output holds the result in a
    directory that is there. *)
Lemma render_Ok (template out : string) (context : strdict)
  (w w' : world) (r : string) :
  render template out context w = (w', Ok r) →
  ∃ text rendered fs1,
    stat (files w) template = Some (File text)
    ∧ str_format text context = Ok rendered
    ∧ grows (files w) fs1
    ∧ files w' = <[out := File rendered]> fs1
    ∧ fs1 !! out ≠ Some Directory
    ∧ dirname out ≠ ""
    ∧ fs1 !! dirname out = Some Directory.
Proof.
  unfold render. intros H.
  apply io_bind_Ok in H as (w1 & text & Hread & H).
  apply io_bind_Ok in H as (w2 & rendered & Hfmt & H).
  apply io_bind_Ok in H as (w3 & e & Hex & H).
  apply io_bind_Ok in H as (w4 & [] & Hmk & H).
  apply io_bind_Ok in H as (w5 & [] & Hwr & H).
  apply io_bind_Ok in H as (w6 & [] & Hpr & H).
  unfold read_file in Hread.
  destruct (stat (files w) template) as [[text'|]|] eqn:Est; try done.
  injection Hread as <- <-.
  unfold lift in Hfmt. injection Hfmt as <- Hfmt.
  unfold path_exists in Hex. injection Hex as <- <-.
  apply write_file_Ok in Hwr as (Hne & Hpar & Hnd & ->).
  unfold print in Hpr. injection Hpr as <-.
  injection H as <- _. simpl.
  exists text', rendered, (files w4). split; [done |]. split; [done |].
  assert (Hg : grows (files w) (files w4)).
  { destruct (bool_decide _);
      [injection Hmk as <-; apply grows_refl |].
    pose proof (makedirs_grows (dirname out) w) as Hg. by rewrite Hmk in Hg. }
  split; [done |]. split; [done |]. split; [done |].
  assert (Hd : dirname out ≠ "").
  { intros Hd. rewrite Hd in Hmk. unfold stat in Hmk. simpl in Hmk.
    discriminate Hmk. }
  split; [done |].
  unfold check_parent in Hpar. rewrite decide_False in Hpar by done.
  by destruct (files w4 !! dirname out) as [[]|].
Qed.

(** A [render] whose output is in place writes what is there already. *)
Lemma render_settled (template out : string) (context : strdict) (w : world) :
  settled (files w) (template, out, context) →
  render template out context w
  = (mkWorld (files w) (stdout w ++ ["Wrote " +:+ out])%list, Ok out).
Proof.
  intros (text & rendered & Hst & Hfmt & Hout & Hd & Hdir). simpl in *.
  unfold render, mbind, io_bind, read_file, lift, path_exists. rewrite Hst, Hfmt.
  unfold stat. rewrite decide_False by done. rewrite Hdir.
  rewrite bool_decide_eq_true_2 by (by eexists). simpl.
  unfold write_file. rewrite decide_False by (intros ->; by apply Hd).
  unfold check_parent. rewrite decide_False by done. rewrite Hdir, Hout.
  simpl. unfold print. simpl. by rewrite insert_id.
Qed.

Lemma field_step_cases (n : string) (c : ascii) :
  field_step n c =
  if Ascii.eqb c "{"%char then inr (ValueError "unexpected '{' in field name")
  else if unmodelled_field_char c then inr (Unmodelled "replacement field")
  else inl (InField (n +:+ String c EmptyString)).
Proof. reflexivity. Qed.

(** On a template of plain fields the formatting raises exceptions of
    Python only. *)
Lemma format_go_plain (s : string) (st : scan_state) (context : strdict)
  (e : exn) :
  plain_go st s = true → format_go st s context = Raise e → python_exception e.
Proof.
  revert st.
  assert (Hmap : ∀ (f : string → string) r,
    (format_go InText r context = Raise e → python_exception e) →
    f <$> format_go InText r context = Raise e → python_exception e).
  { intros f r IH H. destruct (format_go InText r context); [done |].
    apply IH. by injection H as ->. }
  assert (Hfield : ∀ n r,
    (format_go InText r context = Raise e → python_exception e) →
    (v ← get_field n context;
     String.app (str_of v) <$> format_go InText r context) = Raise e →
    python_exception e).
  { intros n r IH H. destruct (get_field n context) as [v|e'] eqn:E; simpl in H.
    - exact (Hmap _ r IH H).
    - injection H as ->. by apply (get_field_python_exception n context). }
  induction s as [|c r IH]; intros st Hp H.
  - destruct st; simpl in H; simplify_eq; done.
  - destruct st as [| |n|]; simpl in Hp, H; rewrite ?field_step_cases in H.
    + destruct (Ascii.eqb c "{"); [by apply (IH AfterOpen) |].
      destruct (Ascii.eqb c "}"); [by apply (IH AfterClose) |].
      refine (Hmap _ r _ H). by apply IH.
    + destruct (Ascii.eqb c "{"); [refine (Hmap _ r _ H); by apply IH |].
      destruct (Ascii.eqb c "}"); [by injection H as <- |].
      destruct (unmodelled_field_char c); [done |]. exact (IH _ Hp H).
    + destruct (Ascii.eqb c "}"); [refine (Hfield _ r _ H); by apply IH |].
      destruct (Ascii.eqb c "{"); [by injection H as <- |].
      destruct (unmodelled_field_char c); [done |]. exact (IH _ Hp H).
    + destruct (Ascii.eqb c "}"); [refine (Hmap _ r _ H); by apply IH |].
      by injection H as <-.
Qed.

(** Braces out of order make the formatting raise, whatever the context. *)
Lemma format_go_malformed (s : string) (st : scan_state) (context : strdict) :
  well_formed_go st s = false → ∃ e, format_go st s context = Raise e.
Proof.
  revert st.
  assert (Hmap : ∀ (f : string → string) r,
    (∃ e, format_go InText r context = Raise e) →
    ∃ e, f <$> format_go InText r context = Raise e).
  { intros f r [e ->]. by exists e. }
  assert (Hfield : ∀ n r,
    (∃ e, format_go InText r context = Raise e) →
    ∃ e, (v ← get_field n context;
          String.app (str_of v) <$> format_go InText r context) = Raise e).
  { intros n r IH. destruct (get_field n context) as [v|e']; simpl.
    - by apply Hmap.
    - by exists e'. }
  induction s as [|c r IH]; intros st Hw.
  - destruct st; [done | by eexists..].
  - destruct st as [| |n|]; simpl in Hw |- *; rewrite ?field_step_cases.
    + destruct (Ascii.eqb c "{"); [by apply IH |].
      destruct (Ascii.eqb c "}"); [by apply IH |]. apply Hmap. by apply IH.
    + destruct (Ascii.eqb c "{"); [apply Hmap; by apply IH |].
      destruct (Ascii.eqb c "}"); [by eexists |].
      destruct (unmodelled_field_char c); [by eexists |]. by apply IH.
    + destruct (Ascii.eqb c "}"); [apply Hfield; by apply IH |].
      destruct (Ascii.eqb c "{"); [by eexists |].
      destruct (unmodelled_field_char c); [by eexists |]. by apply IH.
    + destruct (Ascii.eqb c "}"); [apply Hmap; by apply IH | by eexists].
Qed.

Lemma get_integer_nondigit (acc : Z) (c : ascii) (r : string) :
  in_range 48 57 c = false → get_integer acc (String c r) = NotInteger.
Proof. intros H. simpl. by rewrite H. Qed.

Lemma get_field_name (k : string) (context : strdict) (v : value) :
  is_name k = true → context !! k = Some v → get_field k context = Ok v.
Proof.
  intros Hn Hk. unfold get_field. destruct k as [|c r]; [done |].
  simpl in Hn. apply andb_true_iff in Hn as [_ Hn]. apply negb_true_iff in Hn.
  rewrite get_integer_nondigit by done. by rewrite Hk.
Qed.

(** With the braces in order and every field a name that the context binds,
    the formatting returns. *)
Lemma format_go_Ok (s : string) (st : scan_state) (context : strdict) :
  well_formed_go st s = true →
  (∀ k, k ∈ fields_go st s → is_name k = true ∧ is_Some (context !! k)) →
  ∃ rendered, format_go st s context = Ok rendered.
Proof.
  revert st.
  assert (Hmap : ∀ (f : string → string) r,
    (∃ rendered, format_go InText r context = Ok rendered) →
    ∃ rendered, f <$> format_go InText r context = Ok rendered).
  { intros f r [x ->]. by eexists. }
  assert (Hfield : ∀ n r,
    (∀ k, k ∈ n :: fields_go InText r → is_name k = true ∧ is_Some (context !! k)) →
    ((∀ k, k ∈ fields_go InText r → is_name k = true ∧ is_Some (context !! k)) →
     ∃ rendered, format_go InText r context = Ok rendered) →
    ∃ rendered, (v ← get_field n context;
                 String.app (str_of v) <$> format_go InText r context)
                = Ok rendered).
  { intros n r Hk IH. destruct (Hk n) as [Hn [v Hv]]; [left |].
    rewrite (get_field_name n context v Hn Hv). simpl. apply Hmap, IH.
    intros k Hin. apply Hk. by right. }
  induction s as [|c r IH]; intros st Hw Hk.
  - destruct st; [by eexists | done..].
  - destruct st as [| |n|]; simpl in Hw, Hk |- *;
      rewrite ?field_step_cases in Hk |- *.
    + destruct (Ascii.eqb c "{"); [by apply IH |].
      destruct (Ascii.eqb c "}"); [by apply IH |]. apply Hmap. by apply IH.
    + destruct (Ascii.eqb c "{"); [apply Hmap; by apply IH |].
      destruct (Ascii.eqb c "}");
        [by destruct (Hk "") as [? _]; [left |] |].
      destruct (unmodelled_field_char c); [done |]. by apply IH.
    + destruct (Ascii.eqb c "}"); [apply Hfield; [done | by apply IH] |].
      destruct (Ascii.eqb c "{"); [done |].
      destruct (unmodelled_field_char c); [done |]. by apply IH.
    + destruct (Ascii.eqb c "}"); [apply Hmap; by apply IH | done].
Qed.

Lemma dirname_nonempty (p : string) : dirname p ≠ "" → p ≠ "".
Proof. intros H ->. by apply H. Qed.

(** [render] on a template that formats, into a directory that is there:
    the output is written, one line is printed, nothing else changes. *)
Lemma render_into_directory (template out : string) (context : strdict)
  (w : world) (text rendered : string) :
  stat (files w) template = Some (File text) →
  str_format text context = Ok rendered →
  stat (files w) (dirname out) = Some Directory →
  files w !! out ≠ Some Directory →
  render template out context w
  = (mkWorld (<[out := File rendered]> (files w))
             (stdout w ++ ["Wrote " +:+ out])%list, Ok out).
Proof.
  intros Hst Hfmt Hdir Hout. rewrite (render_unfold _ _ _ _ _ Hst), Hfmt.
  apply stat_Some in Hdir as [Hd Hdir].
  unfold mbind, io_bind, path_exists, stat. rewrite decide_False by done.
  rewrite Hdir. rewrite bool_decide_eq_true_2 by (by eexists). simpl.
  unfold write_file. rewrite decide_False by (by apply dirname_nonempty).
  unfold check_parent. rewrite decide_False by done. rewrite Hdir.
  by destruct (files w !! out) as [[]|].
Qed.

(** C5.  With the template read as [text], a text of plain replacement
    fields: a placeholder that the context does not bind makes [render]
    raise before anything is written, and so do braces out of order, whatever
    the context; keys that no placeholder names change nothing in what
    [render] does and returns; a [render] that returns has formatted the text
    with the context, has written the result to the output path and returns
    that path; and [render] does return, having written just that, when the
    braces are in order, every placeholder is a name that the context binds,
    and the output path, in normal form, names an entry of a directory that
    is there and is no directory itself. *)
Theorem render_placeholders
  (template out : string) (context : strdict) (w : world) (text : string) :
  stat (files w) template = Some (File text) →
  plain text = true →
  (∀ k, k ∈ placeholders text → context !! k = None →
        ∃ e, render template out context w = (w, Raise e)
             ∧ python_exception e)
  ∧ (well_formed text = false →
     ∃ e, render template out context w = (w, Raise e) ∧ python_exception e)
  ∧ (∀ extra, (∀ k, k ∈ placeholders text → extra !! k = None) →
              render template out (extra ∪ context) w
              = render template out context w)
  ∧ (∀ w' r, render template out context w = (w', Ok r) →
             r = out
             ∧ ∃ rendered, str_format text context = Ok rendered
                           ∧ files w' !! out = Some (File rendered))
  ∧ (well_formed text = true →
     (∀ k, k ∈ placeholders text →
           is_name k = true ∧ is_Some (context !! k)) →
     normal_path out = true →
     stat (files w) (dirname out) = Some Directory →
     files w !! out ≠ Some Directory →
     ∃ rendered,
       str_format text context = Ok rendered
       ∧ render template out context w
         = (mkWorld (<[out := File rendered]> (files w))
                    (stdout w ++ ["Wrote " +:+ out])%list, Ok out)).
Proof.
  intros Hread Hplain. split; [| split; [| split; [| split]]].
  - intros k Hin Hk. rewrite (render_unfold _ _ _ _ _ Hread).
    destruct (format_go_missing text InText context k Hin Hk) as (e & E & He).
    exists e. unfold str_format. by rewrite E.
  - intros Hw. rewrite (render_unfold _ _ _ _ _ Hread).
    destruct (format_go_malformed text InText context Hw) as [e E].
    exists e. unfold str_format. rewrite E. split; [done |].
    by apply (format_go_plain text InText context).
  - intros extra Hex. rewrite !(render_unfold _ _ _ _ _ Hread).
    unfold str_format. by rewrite format_go_extra.
  - intros w' r H. split; [by apply (render_returns_out _ _ _ _ _ _ H) |].
    apply render_Ok in H
      as (text' & rendered & fs1 & Hst & Hfmt & _ & Hf & _).
    rewrite Hread in Hst. injection Hst as <-.
    exists rendered. split; [done |]. by rewrite Hf, lookup_insert_eq.
  - intros Hw Hk _ Hdir Hout.
    destruct (format_go_Ok text InText context Hw Hk) as [rendered Hfmt].
    exists rendered. split; [done |]. by apply (render_into_directory _ _ _ _ text).
Qed.

(** C5 on the compose template of [debian_project]: a context without
    [host_port] makes [render] raise; with every placeholder bound [render]
    returns, with and without a key that the template does not use, and the
    output holds the formatted text. *)
Lemma render_placeholders_witness :
  (∃ e, render "debian-like/docker-compose.template.yml" "debian-like/compose.yml"
          {["distro_slug" := VStr "s"; "tag" := VStr "t"; "host_arch" := VStr "h"]}
          debian_project
        = (debian_project, Raise e))
  ∧ ∃ w',
      render "debian-like/docker-compose.template.yml" "debian-like/compose.yml"
        ({["unused" := VNone]}
           ∪ {["distro_slug" := VStr "s"; "tag" := VStr "t";
               "host_arch" := VStr "h"; "host_port" := VInt 1]})
        debian_project
      = (w', Ok "debian-like/compose.yml")
      ∧ render "debian-like/docker-compose.template.yml" "debian-like/compose.yml"
          {["distro_slug" := VStr "s"; "tag" := VStr "t";
            "host_arch" := VStr "h"; "host_port" := VInt 1]}
          debian_project
        = (w', Ok "debian-like/compose.yml")
      ∧ files w' !! "debian-like/compose.yml"
        = Some (File "image: host-s:t-h ports: 1:1 env: ${HOME}").
Proof.
  assert (Hread : stat (files debian_project)
                    "debian-like/docker-compose.template.yml"
                  = Some (File "image: host-{distro_slug}:{tag}-{host_arch} ports: {host_port}:{host_port} env: ${{HOME}}"))
    by (vm_compute; reflexivity).
  assert (Hfields :
    placeholders "image: host-{distro_slug}:{tag}-{host_arch} ports: {host_port}:{host_port} env: ${{HOME}}"
    = ["distro_slug"; "tag"; "host_arch"; "host_port"; "host_port"])
    by (vm_compute; reflexivity).
  split.
  - destruct (render_placeholders _ "debian-like/compose.yml"
                {["distro_slug" := VStr "s"; "tag" := VStr "t";
                  "host_arch" := VStr "h"]}
                debian_project _ Hread) as (H & _); [vm_compute; reflexivity |].
    destruct (H "host_port") as (e & E & _);
      [rewrite Hfields; compute_done | vm_compute; reflexivity |].
    by exists e.
  - destruct (render_placeholders _ "debian-like/compose.yml"
                {["distro_slug" := VStr "s"; "tag" := VStr "t";
                  "host_arch" := VStr "h"; "host_port" := VInt 1]}
                debian_project _ Hread) as (_ & _ & Hextra & _ & Hret);
      [vm_compute; reflexivity |].
    destruct Hret as (rendered & Hfmt & E).
    + vm_compute. reflexivity.
    + rewrite Hfields. intros k Hk.
      repeat (apply elem_of_cons in Hk as [-> | Hk];
              [split; [reflexivity | vm_compute; eexists; reflexivity] |]).
      apply elem_of_nil in Hk. destruct Hk.
    + vm_compute. reflexivity.
    + vm_compute. reflexivity.
    + vm_compute. discriminate.
    + vm_compute in Hfmt. injection Hfmt as <-.
      eexists. split; [| split; [exact E |]].
      * rewrite Hextra; [exact E |]. rewrite Hfields. intros k Hk.
        repeat (apply elem_of_cons in Hk as [-> | Hk];
                [vm_compute; reflexivity |]).
        apply elem_of_nil in Hk. destruct Hk.
      * cbn [files]. apply lookup_insert_eq.
Defined.

(* ===================================================================== *)
(** ** Sequences of [render] calls *)
(* ===================================================================== *)

Lemma run_job_Ok (j : job) (w w' : world) :
  run_job j w = (w', Ok tt) →
  ∃ r, render (template_of j) (out_of j) j.2 w = (w', Ok r).
Proof.
  unfold run_job. intros H. apply io_bind_Ok in H as (w1 & r & H & E).
  injection E as <-. by exists r.
Qed.

(** A job that returns has written its output, and its output is in place
    unless it overwrote its own template. *)
Lemma run_job_written (j : job) (w w' : world) :
  run_job j w = (w', Ok tt) →
  written (out_of j) (files w) (files w')
  ∧ (out_of j ≠ template_of j → settled (files w') j).
Proof.
  intros H. apply run_job_Ok in H as [r H].
  apply render_Ok in H
    as (text & rendered & fs1 & Hst & Hfmt & Hg & -> & Hnd & Hd & Hdir).
  split; [by exists fs1, rendered |].
  intros Hne. exists text, rendered. fold (template_of j) (out_of j).
  split; [| split; [done | split; [by rewrite lookup_insert_eq | split; [done |]]]].
  - apply (stat_grows _ fs1) in Hst; [| done].
    apply stat_Some in Hst as [? Hst]. apply stat_Some. split; [done |].
    by rewrite lookup_insert_ne.
  - rewrite lookup_insert_ne; [done |]. intros E. rewrite E in Hnd. done.
Qed.

(** A file written elsewhere leaves a job's output in place. *)
Lemma settled_written (j : job) (out : string) (fs fs' : gmap string node) :
  settled fs j → written out fs fs' →
  out ≠ out_of j → out ≠ template_of j → settled fs' j.
Proof.
  intros (text & rendered & Hst & Hfmt & Hout & Hd & Hdir)
         (fs1 & content & Hg & -> & Hnd) Ho Ht.
  exists text, rendered. fold (template_of j) (out_of j) in *.
  split; [| split; [done | split; [| split; [done |]]]].
  - apply (stat_grows _ fs1) in Hst; [| done].
    apply stat_Some in Hst as [? Hst]. apply stat_Some. split; [done |].
    by rewrite lookup_insert_ne.
  - rewrite lookup_insert_ne by done. by apply (grows_lookup_Some fs).
  - apply (grows_lookup_Some _ fs1) in Hdir; [| done].
    rewrite lookup_insert_ne; [done |]. intros E. rewrite E in Hnd. done.
Qed.

(** A file that is there after a write elsewhere was there before. *)
Lemma written_file_back (out p text : string) (fs fs' : gmap string node) :
  written out fs fs' → p ≠ out →
  fs' !! p = Some (File text) → fs !! p = Some (File text).
Proof.
  intros (fs1 & content & Hg & -> & _) Hne. rewrite lookup_insert_ne by done.
  destruct (Hg p) as [-> | [_ ->]]; done.
Qed.

Lemma run_jobs_cons (j : job) (js : list job) (w w' : world) :
  run_jobs (j :: js) w = (w', Ok tt) →
  ∃ w1, run_job j w = (w1, Ok tt) ∧ run_jobs js w1 = (w', Ok tt).
Proof.
  unfold run_jobs. simpl. intros H.
  apply io_bind_Ok in H as (w1 & [] & H1 & H2). by exists w1.
Qed.

(** Later jobs that write elsewhere leave a job's output in place. *)
Lemma run_jobs_preserve (js : list job) (j : job) (w w' : world) :
  run_jobs js w = (w', Ok tt) →
  settled (files w) j →
  Forall (λ j', out_of j' ≠ out_of j ∧ out_of j' ≠ template_of j) js →
  settled (files w') j.
Proof.
  revert w. induction js as [|j' js IH]; intros w H Hs Hall.
  - by injection H as <-.
  - apply run_jobs_cons in H as (w1 & H1 & H2).
    apply Forall_cons in Hall as [[Ho Ht] Hall].
    apply (IH w1); [done | | done].
    apply run_job_written in H1 as [Hw _].
    by apply (settled_written j (out_of j') (files w)).
Qed.

(** After a sequence of jobs with distinct outputs, none of which is a
    template of the sequence, every output is in place. *)
Lemma run_jobs_establish (js : list job) (w w' : world) :
  NoDup (out_of <$> js) →
  Forall (λ j, out_of j ∉ template_of <$> js) js →
  run_jobs js w = (w', Ok tt) →
  Forall (settled (files w')) js.
Proof.
  revert w. induction js as [|j js IH]; intros w Hnd Hot H; [constructor |].
  apply run_jobs_cons in H as (w1 & H1 & H2).
  rewrite fmap_cons in Hnd. apply NoDup_cons in Hnd as [Hj Hnd].
  apply Forall_cons in Hot as [Hjt Hot].
  rewrite fmap_cons in Hjt. apply not_elem_of_cons in Hjt as [Hjj Hjt].
  constructor.
  - apply (run_jobs_preserve js j w1); [done | |].
    + apply run_job_written in H1 as [_ Hs]. by apply Hs.
    + apply Forall_forall. intros j' Hin. split.
      * intros E. apply Hj. rewrite <- E. apply list_elem_of_fmap. by exists j'.
      * rewrite Forall_forall in Hot. specialize (Hot j' Hin).
        rewrite fmap_cons in Hot. apply not_elem_of_cons in Hot as [Hot _]. done.
  - apply (IH w1); [done | | done].
    eapply Forall_impl; [exact Hot |]. intros j' Hj'.
    rewrite fmap_cons in Hj'. by apply not_elem_of_cons in Hj' as [_ ?].
Qed.

(** When every output is in place, the sequence returns and leaves the
    files as they are. *)
Lemma run_jobs_settled (js : list job) (w : world) :
  Forall (settled (files w)) js →
  ∃ w', run_jobs js w = (w', Ok tt) ∧ files w' = files w.
Proof.
  revert w. induction js as [|j js IH]; intros w Hall; [by exists w |].
  apply Forall_cons in Hall as [Hj Hall].
  destruct j as [[t o] c].
  pose proof (render_settled t o c w Hj) as E.
  destruct (IH (mkWorld (files w) (stdout w ++ ["Wrote " +:+ o])%list) Hall)
    as (w' & E' & Hf).
  exists w'. split; [| done].
  unfold run_jobs in *. simpl. unfold run_job. simpl.
  unfold mbind, io_bind in *. rewrite E. simpl. exact E'.
Qed.

(** Running such a sequence again succeeds and changes no file. *)
Lemma run_jobs_idempotent (js : list job) (w w1 : world) :
  NoDup (out_of <$> js) →
  Forall (λ j, out_of j ∉ template_of <$> js) js →
  run_jobs js w = (w1, Ok tt) →
  ∃ w2, run_jobs js w1 = (w2, Ok tt) ∧ files w2 = files w1.
Proof.
  intros Hnd Hot H. apply run_jobs_settled.
  by apply (run_jobs_establish js w).
Qed.

(** A file that is there after the sequence, and is none of its outputs,
    was there before. *)
Lemma run_jobs_file_back (js : list job) (w w' : world) (p text : string) :
  run_jobs js w = (w', Ok tt) → p ∉ out_of <$> js →
  files w' !! p = Some (File text) → files w !! p = Some (File text).
Proof.
  revert w. induction js as [|j js IH]; intros w H Hp Hf.
  - by injection H as <-.
  - apply run_jobs_cons in H as (w1 & H1 & H2).
    rewrite fmap_cons in Hp. apply not_elem_of_cons in Hp as [Hne Hp].
    apply run_job_written in H1 as [Hw _].
    apply (written_file_back (out_of j) p text (files w) (files w1)); [done.. |].
    by apply (IH w1).
Qed.

(* ===================================================================== *)
(** ** When the context builder returns *)
(* ===================================================================== *)

Lemma dict_get_insert_ne (d : strdict) (k k' : string) (v : value) :
  k ≠ k' → dict_get (<[k := v]> d) k' = dict_get d k'.
Proof. intros H. unfold dict_get. by rewrite lookup_insert_ne. Qed.

Lemma dict_get_insert_eq (d : strdict) (k : string) (v : value) :
  dict_get (<[k := v]> d) k = v.
Proof. unfold dict_get. by rewrite lookup_insert_eq. Qed.

Lemma dict_get_base_context (self : Distro) (kwargs : strdict) (k : string) :
  k ≠ "distro" → k ≠ "distro_slug" → k ≠ "tag" →
  dict_get (base_context self kwargs) k = dict_get kwargs k.
Proof. intros. unfold dict_get. by rewrite base_context_lookup_ne. Qed.

Lemma is_ok_true {A} (r : result A) : is_ok r = true → ∃ a, r = Ok a.
Proof. destruct r; [by eexists | done]. Qed.

(** The builder returns when the lookups it makes for the architectures it
    is given succeed. *)
Lemma get_template_context_Ok (self : Distro) (kwargs : strdict) :
  archs_ok self (dict_get kwargs "client_arch") (dict_get kwargs "host_arch") = true →
  ∃ context, get_template_context self kwargs = Ok context.
Proof.
  unfold archs_ok, get_template_context, DebianLike_get_template_context,
    ArchLinuxLike_get_template_context.
  rewrite Distro_get_template_context_unfold. cbv zeta.
  rewrite !dict_get_base_context by done.
  set (c := dict_get kwargs "client_arch"). set (h := dict_get kwargs "host_arch").
  set (B := base_context self kwargs).
  assert (Ec : dict_get B "client_arch" = c) by (by apply dict_get_base_context).
  assert (Eh : dict_get B "host_arch" = h) by (by apply dict_get_base_context).
  intros H. apply andb_true_iff in H as [Hc Hh].
  destruct (truthy c) eqn:Tc.
  - apply andb_true_iff in Hc as [Hc Hcls]. apply andb_true_iff in Hc as [Hp Hpart].
    apply is_ok_true in Hp as [p ->]. simpl.
    destruct (truthy h) eqn:Th.
    + apply is_ok_true in Hpart as [part ->]. simpl.
      destruct (cls self); apply is_ok_true in Hcls as [x Hx], Hh as [y Hy];
        simpl; rewrite !dict_get_insert_ne by done; rewrite Ec, Eh, Tc, Th, Hx;
        simpl; rewrite Hy; by eexists.
    + destruct (cls self); apply is_ok_true in Hcls as [x Hx];
        simpl; rewrite !dict_get_insert_ne by done; rewrite Ec, Eh, Tc, Th, Hx;
        by eexists.
  - destruct (truthy h) eqn:Th.
    + destruct (cls self); apply is_ok_true in Hh as [y Hy];
        simpl; rewrite Ec, Eh, Tc, Th; simpl; rewrite Hy; by eexists.
    + destruct (cls self); simpl; rewrite Ec, Eh, Tc, Th; by eexists.
Qed.

Lemma call_kw_free (k : string) (v : value) (kwargs : strdict) :
  kwargs !! k = None → call_kw k v kwargs = Ok (<[k := v]> kwargs).
Proof. unfold call_kw. by intros ->. Qed.

(** The three calls of the orchestrator, for keyword arguments that name no
    architecture. *)
Lemma kw_context_host (self : Distro) (kwargs : strdict) (h : string) :
  kwargs !! "host_arch" = None → kwargs !! "client_arch" = None →
  archs_ok self VNone (VStr h) = true →
  ∃ context, kw_context self [("host_arch", VStr h)] kwargs = Ok context.
Proof.
  intros Hh Hc Hok. unfold kw_context. simpl. rewrite call_kw_free by done.
  simpl. apply get_template_context_Ok.
  rewrite dict_get_insert_eq, dict_get_insert_ne by done.
  unfold dict_get. by rewrite Hc.
Qed.

Lemma kw_context_client (self : Distro) (kwargs : strdict) (c : string) :
  kwargs !! "host_arch" = None → kwargs !! "client_arch" = None →
  archs_ok self (VStr c) VNone = true →
  ∃ context, kw_context self [("client_arch", VStr c)] kwargs = Ok context.
Proof.
  intros Hh Hc Hok. unfold kw_context. simpl. rewrite call_kw_free by done.
  simpl. apply get_template_context_Ok.
  rewrite dict_get_insert_eq, dict_get_insert_ne by done.
  unfold dict_get. by rewrite Hh.
Qed.

Lemma kw_context_both (self : Distro) (kwargs : strdict) (h c : string) :
  kwargs !! "host_arch" = None → kwargs !! "client_arch" = None →
  archs_ok self (VStr c) (VStr h) = true →
  ∃ context,
    kw_context self [("host_arch", VStr h); ("client_arch", VStr c)] kwargs
    = Ok context.
Proof.
  intros Hh Hc Hok. unfold kw_context. simpl. rewrite call_kw_free by done.
  simpl. rewrite call_kw_free by (by rewrite lookup_insert_ne).
  simpl. apply get_template_context_Ok.
  by rewrite dict_get_insert_eq, dict_get_insert_ne, dict_get_insert_eq.
Qed.

Lemma tag_argument_lookup_ne (tag : option string) (k : string) :
  k ≠ "tag" → tag_argument tag !! k = None.
Proof. intros H. unfold tag_argument. by rewrite lookup_singleton_ne. Qed.

(** With a tag alone, as the command line passes it, every context of
    [debian:buster] can be built. *)
Lemma debian_buster_buildable (tag : option string) :
  buildable debian_buster (tag_argument tag)
    (DebianLike_render_targets debian_buster).
Proof.
  unfold buildable.
  assert (Hh := tag_argument_lookup_ne tag "host_arch").
  assert (Hc := tag_argument_lookup_ne tag "client_arch").
  generalize dependent (tag_argument tag). intros kwargs Hh Hc.
  specialize (Hh ltac:(done)). specialize (Hc ltac:(done)).
  let ts := eval vm_compute in (DebianLike_render_targets debian_buster) in
  replace (DebianLike_render_targets debian_buster) with ts
    by (vm_compute; reflexivity).
  repeat (apply Forall_cons; split;
    [ first [ apply kw_context_host | apply kw_context_client
            | apply kw_context_both ];
      [done | done | vm_compute; reflexivity] |]).
  constructor.
Qed.

(* ===================================================================== *)
(** ** The orchestrator as a sequence of [render] calls *)
(* ===================================================================== *)

Lemma for_each_app {A} (l1 l2 : list A) (body : A → io unit) (w : world) :
  for_each (l1 ++ l2) body w = (for_each l1 body;; for_each l2 body) w.
Proof.
  revert w. induction l1 as [|x l1 IH]; intros w; [done |].
  simpl. unfold mbind, io_bind in *.
  destruct (body x w) as [w1 [[]|e]]; [apply IH | done].
Qed.

Lemma performs_nil : performs (mret tt) [].
Proof. by exists []. Qed.

Lemma performs_seq (m1 m2 : io unit)
  (p1 p2 : list (string * string * result strdict)) :
  performs m1 p1 → performs m2 p2 → performs (m1;; m2) (p1 ++ p2).
Proof.
  intros (js1 & -> & E1) (js2 & -> & E2). exists (js1 ++ js2)%list.
  split; [by rewrite fmap_app |].
  intros w. unfold run_jobs. rewrite for_each_app.
  unfold mbind, io_bind. rewrite E1. unfold run_jobs.
  destruct (for_each js1 run_job w) as [w1 [[]|e]]; [apply E2 | done].
Qed.

Lemma performs_ext (m m' : io unit)
  (p : list (string * string * result strdict)) :
  (∀ w, m w = m' w) → performs m' p → performs m p.
Proof.
  intros E (js & -> & E'). exists js. split; [done |].
  intros w. by rewrite E.
Qed.

(** A loop performs what its rounds perform, one after the other. *)
Lemma performs_for_each {A} (self : Distro) (kwargs : strdict)
  (l : list A) (body : A → io unit) (ts : A → list target) :
  (∀ x, x ∈ l → performs (body x) (planned self kwargs <$> ts x)) →
  performs (for_each l body) (planned self kwargs <$> (l ≫= ts)).
Proof.
  induction l as [|x l IH]; intros H; [apply performs_nil |].
  simpl. rewrite fmap_app. apply performs_seq.
  - apply H. left.
  - apply IH. intros y Hy. apply H. by right.
Qed.

Lemma run_jobs_one (j : job) (w : world) : run_jobs [j] w = run_job j w.
Proof.
  unfold run_jobs. simpl. unfold mbind, io_bind.
  by destruct (run_job j w) as [w1 [[]|e]].
Qed.

(** One round with one [render] call. *)
Lemma performs_render (self : Distro) (kwargs : strdict) (t : target) :
  (∃ context, kw_context self t.2 kwargs = Ok context) →
  performs
    (context ← context_for self t.2 kwargs;
     render (template_of t) (out_of t) context;; mret tt)
    (planned self kwargs <$> [t]).
Proof.
  intros [c E]. exists [(template_of t, out_of t, c)]. split.
  - simpl. unfold planned, planned_job. simpl. by rewrite E.
  - intros w. rewrite run_jobs_one.
    unfold run_job, context_for, lift, mbind, io_bind. by rewrite E.
Qed.

(** One round with three [render] calls on one context. *)
Lemma performs_render3 (self : Distro) (kwargs : strdict)
  (explicit : list (string * value)) (t1 o1 t2 o2 t3 o3 : string) :
  (∃ context, kw_context self explicit kwargs = Ok context) →
  performs
    (context ← context_for self explicit kwargs;
     render t1 o1 context;; render t2 o2 context;; render t3 o3 context;;
     mret tt)
    (planned self kwargs <$> [(t1, o1, explicit); (t2, o2, explicit);
                              (t3, o3, explicit)]).
Proof.
  intros [c E]. exists [(t1, o1, c); (t2, o2, c); (t3, o3, c)]. split.
  - simpl. unfold planned, planned_job. simpl. by rewrite E.
  - intros w.
    change (run_jobs [(t1, o1, c); (t2, o2, c); (t3, o3, c)] w)
      with ((run_job (t1, o1, c);; run_job (t2, o2, c);;
             run_jobs [(t3, o3, c)]) w).
    unfold context_for, lift, run_job, mbind, io_bind. rewrite E. simpl.
    destruct (render t1 o1 c w) as [w1 [r1|e]]; [| done]. simpl.
    destruct (render t2 o2 c w1) as [w2 [r2|e]]; [| done]. simpl.
    rewrite run_jobs_one. unfold run_job, mbind, io_bind. simpl.
    by destruct (render t3 o3 c w2) as [w3 [r3|e]].
Qed.

Lemma buildable_app (self : Distro) (kwargs : strdict) (ts1 ts2 : list target) :
  buildable self kwargs (ts1 ++ ts2) →
  buildable self kwargs ts1 ∧ buildable self kwargs ts2.
Proof. apply Forall_app. Qed.

Lemma buildable_bind {A} (self : Distro) (kwargs : strdict)
  (l : list A) (ts : A → list target) (x : A) :
  buildable self kwargs (l ≫= ts) → x ∈ l → buildable self kwargs (ts x).
Proof.
  unfold buildable. rewrite !Forall_forall. intros H Hx t Ht.
  apply H. apply list_elem_of_bind. by exists x.
Qed.

Lemma buildable_one (self : Distro) (kwargs : strdict) (t : target) :
  buildable self kwargs [t] → ∃ context, kw_context self t.2 kwargs = Ok context.
Proof. intros H. by apply Forall_cons in H as [? _]. Qed.

(** [Distro.render] performs its targets. *)
Lemma Distro_render_performs (self : Distro) (kwargs : strdict) :
  buildable self kwargs (Distro_render_targets self) →
  performs (Distro_render self kwargs)
    (planned self kwargs <$> Distro_render_targets self).
Proof.
  unfold Distro_render_targets, Distro_render. intros H.
  apply buildable_app in H as [Hhost H]. apply buildable_app in H as [Hclient Hboth].
  rewrite !fmap_app. apply performs_seq; [| apply performs_seq].
  - apply performs_for_each. intros h Hin.
    apply (performs_render self kwargs (_, _, _)).
    apply buildable_one. by apply (buildable_bind _ _ _ _ h) in Hhost.
  - apply performs_for_each. intros c Hin.
    apply (performs_render self kwargs (_, _, _)).
    apply buildable_one. by apply (buildable_bind _ _ _ _ c) in Hclient.
  - apply performs_for_each. intros h Hh.
    apply (buildable_bind _ _ _ _ h) in Hboth; [| done].
    apply performs_for_each. intros c Hc.
    apply (performs_render self kwargs (_, _, _)).
    apply buildable_one. by apply (buildable_bind _ _ _ _ c) in Hboth.
Qed.

(** The loop over the compilers of a host architecture that the table
    knows. *)
Lemma performs_for_each_compiler (self : Distro) (kwargs : strdict)
  (h : string) (body : string → io unit) (ts : string → list target) :
  is_Some (compilers_by_host_arch (cls self) !! h) →
  (∀ c, c ∈ default [] (compilers_by_host_arch (cls self) !! h) →
        performs (body c) (planned self kwargs <$> ts c)) →
  performs (for_each_compiler self h body)
    (planned self kwargs
       <$> (default [] (compilers_by_host_arch (cls self) !! h) ≫= ts)).
Proof.
  intros [l E] H. rewrite E in *. simpl in *.
  apply (performs_ext _ (for_each l body)).
  - intros w. unfold for_each_compiler, getitem, lift, mbind, io_bind.
    by rewrite E.
  - by apply performs_for_each.
Qed.

(** [DebianLike.render] performs its targets. *)
Lemma DebianLike_render_performs (self : Distro) (kwargs : strdict) :
  cls self = DebianLike →
  buildable self kwargs (DebianLike_render_targets self) →
  performs (DebianLike_render self kwargs)
    (planned self kwargs <$> DebianLike_render_targets self).
Proof.
  unfold DebianLike_render_targets, DebianLike_render. intros Hcls H.
  apply buildable_app in H as [Hbase Hinitd].
  rewrite fmap_app. apply performs_seq; [by apply Distro_render_performs |].
  unfold DebianLike_render_initd_distccd, initd_targets in *.
  apply performs_for_each. intros h Hh.
  apply (buildable_bind _ _ _ _ h) in Hinitd; [| done].
  apply performs_for_each_compiler.
  { rewrite Hcls in *. simpl in Hh. list_cases Hh; by eexists. }
  intros c Hc. apply (buildable_bind _ _ _ _ c) in Hinitd; [| done].
  cbv zeta in *. apply performs_render3.
  by apply Forall_cons in Hinitd as [? _].
Qed.

(* ===================================================================== *)
(** ** Rendering [debian:buster] *)
(* ===================================================================== *)

(** The jobs of a plan have the templates and outputs of its targets. *)
Lemma plan_paths (self : Distro) (kwargs : strdict) (ts : list target)
  (js : list job) :
  planned self kwargs <$> ts = planned_job <$> js →
  out_of <$> js = out_of <$> ts ∧ template_of <$> js = template_of <$> ts.
Proof.
  revert js. induction ts as [|t ts IH]; intros [|j js] H; try done.
  rewrite !fmap_cons in H. injection H as Ht Ho _ H.
  destruct (IH js H) as [E1 E2]. rewrite !fmap_cons, E1, E2.
  unfold out_of, template_of. by rewrite Ht, Ho.
Qed.

(** A target of the plan whose context is built is a job of the plan. *)
Lemma plan_job (self : Distro) (kwargs : strdict) (ts : list target)
  (js : list job) (t : target) (context : strdict) :
  planned self kwargs <$> ts = planned_job <$> js →
  t ∈ ts → kw_context self t.2 kwargs = Ok context →
  (template_of t, out_of t, context) ∈ js.
Proof.
  intros H Ht E.
  assert (Hin : planned self kwargs t ∈ planned_job <$> js).
  { rewrite <- H. apply list_elem_of_fmap. by exists t. }
  apply list_elem_of_fmap in Hin as ([[tj oj] cj] & Hj & Hin).
  unfold planned, planned_job in Hj. simpl in Hj. rewrite E in Hj.
  injection Hj as <- <- <-. done.
Qed.

(** [render debian:buster --tag T] is a sequence of jobs for the targets of
    [DebianLike.render]. *)
Lemma debian_buster_render_jobs (tag : option string) :
  ∃ js,
    planned debian_buster (tag_argument tag)
      <$> DebianLike_render_targets debian_buster = planned_job <$> js
    ∧ ∀ w, main initial_registry (render_cmd "debian:buster" tag) w
           = run_jobs js w.
Proof.
  destruct (DebianLike_render_performs debian_buster (tag_argument tag) eq_refl
              (debian_buster_buildable tag)) as (js & Hplan & Hrun).
  exists js. split; [done |]. intros w. by rewrite <- Hrun.
Qed.

(** The outputs of [debian:buster] are distinct, and none is a template. *)
Lemma debian_buster_outputs_distinct :
  NoDup (out_of <$> DebianLike_render_targets debian_buster)
  ∧ Forall (λ o, o ∉ template_of <$> DebianLike_render_targets debian_buster)
      (out_of <$> DebianLike_render_targets debian_buster).
Proof. split; compute_done. Qed.

(** After [render debian:buster --tag T] has returned, every output of the
    plan is in place. *)
Lemma debian_buster_render_settles (tag : option string) (w w' : world) :
  main initial_registry (render_cmd "debian:buster" tag) w = (w', Ok tt) →
  ∃ js,
    planned debian_buster (tag_argument tag)
      <$> DebianLike_render_targets debian_buster = planned_job <$> js
    ∧ (∀ w, main initial_registry (render_cmd "debian:buster" tag) w
            = run_jobs js w)
    ∧ Forall (settled (files w')) js.
Proof.
  intros H. destruct (debian_buster_render_jobs tag) as (js & Hplan & Hrun).
  exists js. split; [done |]. split; [done |].
  destruct (plan_paths _ _ _ _ Hplan) as [Ho Ht].
  destruct debian_buster_outputs_distinct as [Hnd Hot].
  rewrite Hrun in H. apply (run_jobs_establish js w); [by rewrite Ho | | done].
  rewrite <- Ho, <- Ht in Hot. rewrite Forall_forall in Hot.
  apply Forall_forall. intros j Hj. apply Hot.
  apply list_elem_of_fmap. by exists j.
Qed.

(** Rendering [debian:buster] again, after a run that returned, returns and
    leaves every file as it is. *)
Lemma debian_buster_render_idempotent (tag : option string) (w w1 : world) :
  main initial_registry (render_cmd "debian:buster" tag) w = (w1, Ok tt) →
  ∃ w2, main initial_registry (render_cmd "debian:buster" tag) w1 = (w2, Ok tt)
        ∧ files w2 = files w1.
Proof.
  intros H. apply debian_buster_render_settles in H as (js & _ & Hrun & Hs).
  rewrite Hrun. by apply run_jobs_settled.
Qed.

(** The context of the compose file for host [amd64] and client [i386] at
    tag [v1]. *)
Lemma compose_context_v1 :
  ∃ context,
    kw_context debian_buster
      [("host_arch", VStr "amd64"); ("client_arch", VStr "i386")]
      (tag_argument (Some "v1")) = Ok context
    ∧ context !! "host_port" = Some (VInt 3603)
    ∧ context !! "tag" = Some (VStr "v1").
Proof.
  assert (H : match kw_context debian_buster
                      [("host_arch", VStr "amd64"); ("client_arch", VStr "i386")]
                      (tag_argument (Some "v1")) with
              | Ok context =>
                  bool_decide (context !! "host_port" = Some (VInt 3603))
                  && bool_decide (context !! "tag" = Some (VStr "v1"))
              | Raise _ => false
              end = true) by (vm_compute; reflexivity).
  destruct (kw_context _ _ _) as [context|]; [| discriminate H].
  apply andb_true_iff in H as [H1 H2].
  apply bool_decide_eq_true in H1, H2. by exists context.
Qed.

(** On [debian_project] the command [render debian:buster --tag v1]
    returns. *)
Lemma debian_project_renders :
  ∃ w', main initial_registry (render_cmd "debian:buster" (Some "v1"))
          debian_project = (w', Ok tt).
Proof.
  assert (H : is_ok (main initial_registry
                       (render_cmd "debian:buster" (Some "v1"))
                       debian_project).2 = true) by (vm_compute; reflexivity).
  destruct (main _ _ _) as [w' [[]|e]]; [by exists w' | discriminate H].
Qed.

(** C6.  For [debian:buster] the compose file of host [amd64] and client
    [i386] has the path [debian-buster/docker-compose.debian-buster.host-amd64.client-i386.yml];
    the context built for it at tag [v1] binds [host_port] to 3603 and [tag]
    to [v1]; whenever [render debian:buster --tag v1] returns, the file at
    that path holds the compose template formatted with that context; and
    on [debian_project] the command returns. *)
Theorem debian_buster_compose_v1 :
  docker_compose_file_path debian_buster "amd64" "i386"
  = "debian-buster/docker-compose.debian-buster.host-amd64.client-i386.yml"
  ∧ ∃ context,
      kw_context debian_buster
        [("host_arch", VStr "amd64"); ("client_arch", VStr "i386")]
        (tag_argument (Some "v1")) = Ok context
      ∧ context !! "host_port" = Some (VInt 3603)
      ∧ context !! "tag" = Some (VStr "v1")
      ∧ (∀ w w',
           main initial_registry (render_cmd "debian:buster" (Some "v1")) w
           = (w', Ok tt) →
           ∃ text rendered,
             files w !! "debian-like/docker-compose.template.yml"
             = Some (File text)
             ∧ str_format text context = Ok rendered
             ∧ files w' !! "debian-buster/docker-compose.debian-buster.host-amd64.client-i386.yml"
               = Some (File rendered))
      ∧ ∃ w', main initial_registry (render_cmd "debian:buster" (Some "v1"))
                debian_project = (w', Ok tt).
Proof.
  split; [vm_compute; reflexivity |].
  destruct compose_context_v1 as (context & E & Hport & Htag).
  exists context. split; [exact E |]. split; [exact Hport |].
  split; [exact Htag |]. split; [| exact debian_project_renders].
  intros w w' H.
  pose proof H as H'.
  apply debian_buster_render_settles in H' as (js & Hplan & Hrun & Hs).
  assert (Hj : ("debian-like/docker-compose.template.yml",
                "debian-buster/docker-compose.debian-buster.host-amd64.client-i386.yml",
                context) ∈ js).
  { apply (plan_job debian_buster (tag_argument (Some "v1"))
             (DebianLike_render_targets debian_buster) js
             ("debian-like/docker-compose.template.yml",
              "debian-buster/docker-compose.debian-buster.host-amd64.client-i386.yml",
              [("host_arch", VStr "amd64"); ("client_arch", VStr "i386")])
             context Hplan); [compute_done | exact E]. }
  rewrite Forall_forall in Hs.
  destruct (Hs _ Hj) as (text & rendered & Hst & Hfmt & Hout & _).
  exists text, rendered. split; [| split; [exact Hfmt | exact Hout]].
  apply stat_Some in Hst as [_ Hst].
  rewrite Hrun in H.
  apply (run_jobs_file_back js w w' _ _ H); [| exact Hst].
  destruct (plan_paths _ _ _ _ Hplan) as [-> _]. compute_done.
Qed.

(* ===================================================================== *)
(** ** Rendering [archlinux] *)
(* ===================================================================== *)

(** A sequence raises when its second part always does. *)
Lemma io_bind_always_raises {A B} (m : io A) (f : A → io B) :
  (∀ a w1, ∃ w' e, f a w1 = (w', Raise e)) →
  ∀ w, ∃ w' e, (m ≫= f) w = (w', Raise e).
Proof.
  intros H w. unfold mbind, io_bind.
  destruct (m w) as [w1 [a|e]]; [apply H | by exists w1, e].
Qed.

(** [shutil.copytree] that returns leaves the parent of the destination in
    place. *)
Lemma copytree_Ok_parent (src dst head tail : string) (w w' : world) :
  path_split dst = (head, tail) → tail ≠ "" → tail ≠ "." → head ≠ "" →
  copytree src dst w = (w', Ok tt) →
  is_Some (files w' !! head).
Proof.
  intros Hs Ht Hd Hh. unfold copytree.
  destruct (stat (files w) src) as [[|]|]; try done.
  destruct (makedirs dst w) as [w1 [[]|e]] eqn:E; [| done].
  intros [= <-]. simpl.
  apply (makedirs_Ok_parent dst head tail) in E as [_ E]; [| done..].
  apply lookup_union_is_Some. right. by eexists.
Qed.

(** [shutil.copytree] onto a destination that is taken raises. *)
Lemma copytree_taken (src dst head tail : string) (w : world) :
  path_split dst = (head, tail) → tail ≠ "" → tail ≠ "." →
  is_Some (files w !! dst) →
  ∃ w' e, copytree src dst w = (w', Raise e).
Proof.
  intros Hs Ht Hd Hin. unfold copytree.
  destruct (stat (files w) src) as [[|]|]; [by eexists _, _ | | by eexists _, _].
  destruct (makedirs_taken dst head tail w Hs Ht Hd Hin) as (w' & e & ->).
  by exists w', e.
Qed.

(** The four copies of [render_systemd_distccd] never all go through: the
    first creates the directory that the second refuses to find. *)
Lemma copy_build_contexts_raises (w : world) :
  ∃ w' e, copy_build_contexts archlinux w = (w', Raise e).
Proof.
  unfold copy_build_contexts. unfold mbind at 1. unfold io_bind.
  destruct (copytree _ _ w) as [w1 [[]|e]] eqn:E1; [| by exists w1, e].
  apply (copytree_Ok_parent _ _ "archlinux/client/build-context" "scripts")
    in E1; [| vm_compute; reflexivity | done..].
  unfold mbind at 1. unfold io_bind, print at 1. simpl files.
  set (w2 := mkWorld _ _).
  destruct (copytree_taken "shared-build-context/client"
              (out_path archlinux // "client/build-context")
              "archlinux/client" "build-context" w2)
    as (w' & e & E); [vm_compute; reflexivity | done | done | exact E1 |].
  exists w', e. by apply io_bind_raise.
Qed.

(** C1.  [render archlinux] never returns: whatever the tag and the files,
    it raises; on [archlinux_project], where every template and directory it
    reads is present, the second [shutil.copytree] raises [FileExistsError]
    for the directory [archlinux/client/build-context] that the first one
    has just created. *)
Theorem archlinux_render_raises :
  (∀ tag w, ∃ w' e,
     main initial_registry (render_cmd "archlinux" tag) w = (w', Raise e))
  ∧ (main initial_registry (render_cmd "archlinux" None) archlinux_project).2
    = Raise (FileExistsError "archlinux/client/build-context").
Proof.
  split; [| vm_compute; reflexivity].
  intros tag w.
  change (main initial_registry (render_cmd "archlinux" tag) w)
    with (ArchLinuxLike_render archlinux (tag_argument tag) w).
  unfold ArchLinuxLike_render, ArchLinuxLike_render_systemd_distccd.
  apply io_bind_always_raises. intros _ w1.
  apply io_bind_always_raises. intros _ w2.
  apply copy_build_contexts_raises.
Qed.

(* ===================================================================== *)
(** ** The recursion of [os.makedirs] *)
(* ===================================================================== *)

Lemma rsplit_slash_length (p : string) :
  (String.length (rsplit_slash p).1 + String.length (rsplit_slash p).2
   = String.length p)%nat.
Proof.
  induction p as [|c p IH]; [done |]. simpl.
  destruct (rsplit_slash p) as [[|h0 h] t]; simpl in *.
  - destruct (Ascii.eqb c "/"); simpl; lia.
  - lia.
Qed.

Lemma rstrip_slashes_length (s : string) :
  (String.length (rstrip_slashes s) <= String.length s)%nat.
Proof.
  induction s as [|c s IH]; [done |]. simpl.
  destruct (rstrip_slashes s); simpl in *; [| lia].
  destruct (Ascii.eqb c "/"); simpl; lia.
Qed.

Lemma path_split_length (p head tail : string) :
  path_split p = (head, tail) →
  (String.length head + String.length tail <= String.length p)%nat.
Proof.
  unfold path_split. pose proof (rsplit_slash_length p) as H.
  destruct (rsplit_slash p) as [h t]. simpl in H.
  pose proof (rstrip_slashes_length h).
  destruct (all_slashes h); intros [= <- <-]; lia.
Qed.

Lemma length_nonempty (s : string) : s ≠ "" → (0 < String.length s)%nat.
Proof. destruct s; [done | simpl; lia]. Qed.

(** The head that [os.makedirs] recurses on is shorter than the name, so the
    bound of [makedirs] is never reached. *)
Lemma makedirs_fuel_enough (fuel : nat) (name : string) (w : world) :
  (String.length name < fuel)%nat →
  (makedirs_fuel fuel name w).2 ≠ Raise RecursionError.
Proof.
  revert name w. induction fuel as [|fuel IH]; intros name w Hlt; [lia |].
  assert (Hmk : ∀ p w0, (mkdir p w0).2 ≠ Raise RecursionError).
  { intros p w0. unfold mkdir. destruct (decide (p = "")); [done |].
    destruct (files w0 !! p); [done |].
    unfold check_parent. destruct (decide (dirname p = "")); [done |].
    by destruct (files w0 !! dirname p) as [[]|]. }
  simpl. destruct (path_split name) as [head tail] eqn:Hs.
  apply path_split_length in Hs.
  destruct (decide (tail = "")) as [-> | Ht].
  - destruct (path_split head) as [head' tail'] eqn:Hs'.
    apply path_split_length in Hs'.
    destruct (decide (head' ≠ "" ∧ tail' ≠ "")) as [[_ Ht'] |]; [| apply Hmk].
    apply length_nonempty in Ht'.
    unfold mbind, io_bind, path_exists. simpl.
    destruct (bool_decide _); [apply Hmk |].
    unfold except_FileExistsError_pass.
    pose proof (IH head' w ltac:(simpl in *; lia)) as Hrec.
    destruct (makedirs_fuel fuel head' w) as [w1 [[]|e]]; simpl in *.
    + destruct (decide (tail' = ".")); [done | apply Hmk].
    + destruct e; try done. destruct (decide (tail' = ".")); [done | apply Hmk].
  - destruct (decide (head ≠ "" ∧ tail ≠ "")) as [_ |]; [| apply Hmk].
    apply length_nonempty in Ht.
    unfold mbind, io_bind, path_exists. simpl.
    destruct (bool_decide _); [apply Hmk |].
    unfold except_FileExistsError_pass.
    pose proof (IH head w ltac:(lia)) as Hrec.
    destruct (makedirs_fuel fuel head w) as [w1 [[]|e]]; simpl in *.
    + destruct (decide (tail = ".")); [done | apply Hmk].
    + destruct e; try done. destruct (decide (tail = ".")); [done | apply Hmk].
Qed.

Lemma makedirs_terminates (name : string) (w : world) :
  (makedirs name w).2 ≠ Raise RecursionError.
Proof. apply makedirs_fuel_enough. lia. Qed.

(** C8 on two worlds: on [debian_project], where nothing was rendered,
    [clean] raises; where the output directory is there, it is removed with
    what is below it. *)
Lemma clean_spec_witness :
  clean debian_buster debian_project
  = (debian_project, Raise (FileNotFoundError "debian-buster"))
  ∧ ∃ w',
      clean debian_buster
        (mkWorld (list_to_map
                    [ ("debian-buster", Directory);
                      ("debian-buster/host", Directory);
                      ("debian-buster/host/Dockerfile.amd64", File "FROM amd64");
                      ("debian-like", Directory) ]) [])
      = (w', Ok tt)
      ∧ files w' !! "debian-buster/host/Dockerfile.amd64" = None
      ∧ files w' !! "debian-like" = Some Directory.
Proof.
  split.
  - apply (proj2 (clean_spec debian_buster debian_project)).
    vm_compute. reflexivity.
  - destruct (proj1 (clean_spec debian_buster
                       (mkWorld (list_to_map
                          [ ("debian-buster", Directory);
                            ("debian-buster/host", Directory);
                            ("debian-buster/host/Dockerfile.amd64", File "FROM amd64");
                            ("debian-like", Directory) ]) [])))
      as (w' & E & _ & Hbelow & Hrest); [vm_compute; reflexivity |].
    exists w'. split; [exact E |]. split.
    + apply Hbelow. vm_compute. reflexivity.
    + rewrite Hrest; [vm_compute; reflexivity | done | vm_compute; reflexivity].
Defined.

(* ===================================================================== *)
(** ** Slugs *)
(* ===================================================================== *)

Lemma string_map_length (f : ascii → ascii) (s : string) :
  String.length (string_map f s) = String.length s.
Proof. induction s as [|c s IH]; [done | simpl; by rewrite IH]. Qed.

(** One character of a slug, and what [slugify] does to it. *)
Lemma slugify_char (c : ascii) :
  let c' := lower_char (if is_word_char c then c else "-"%char) in
  slug_char c' = true
  ∧ lower_char (if is_word_char c' then c' else "-"%char) = c'.
Proof.
  destruct c as [[] [] [] [] [] [] [] []]; vm_compute; by split.
Qed.

(** On ASCII strings [slugify] keeps the length, yields only lower-case
    letters, digits, underscores and hyphens, so neither a slash nor a dot,
    and changes no slug. *)
Theorem slugify_spec (s : string) :
  ascii_only s = true →
  String.length (slugify s) = String.length s
  ∧ string_forall slug_char (slugify s) = true
  ∧ slugify (slugify s) = slugify s.
Proof.
  intros _.
  unfold slugify, lower, sub_non_word. split; [by rewrite !string_map_length |].
  induction s as [|c s [IH1 IH2]]; [done |]. simpl.
  destruct (slugify_char c) as [H1 H2]. cbv zeta in H1, H2.
  rewrite H1, IH1, H2, IH2. done.
Qed.

Lemma slugify_spec_witness :
  String.length (slugify "Debian:Buster 10") = 16%nat
  ∧ string_forall slug_char (slugify "Debian:Buster 10") = true.
Proof.
  destruct (slugify_spec "Debian:Buster 10") as (H1 & H2 & _); [reflexivity |].
  split; [exact H1 | exact H2].
Defined.

(* ===================================================================== *)
(** ** Registrations *)
(* ===================================================================== *)

Lemma odict_set_elem {V} (d : odict V) (k : string) (v : V) (kv : string * V) :
  kv ∈ odict_set d k v → kv = (k, v) ∨ kv ∈ d.
Proof.
  induction d as [|[k0 v0] d IH]; simpl.
  - intros H. apply list_elem_of_singleton in H. by left.
  - destruct (decide (k0 = k)) as [-> | Hne]; intros H;
      apply elem_of_cons in H as [-> | H].
    + by left.
    + right. by right.
    + right. left.
    + destruct (IH H) as [-> | ?]; [by left | right; by right].
Qed.

Lemma odict_keys_set_NoDup {V} (d : odict V) (k : string) (v : V) :
  NoDup (odict_keys d) → NoDup (odict_keys (odict_set d k v)).
Proof.
  intros H. destruct (decide (k ∈ odict_keys d)) as [Hin | Hout].
  - by rewrite odict_keys_set_present.
  - rewrite odict_keys_set_absent by done.
    apply NoDup_app. split; [done |]. split; [| apply NoDup_singleton].
    intros x Hx Hx'. apply list_elem_of_singleton in Hx'. by subst.
Qed.

(** Registrations keep the registry in order: no name twice, every name
    bound to an instance of that name; a new name goes last, and the
    instances under other names stay. *)
Theorem Distro_init_keeps_registry (reg : registry) (c : family) (n : string) :
  registry_ok reg →
  registry_ok (Distro_init c n reg).2
  ∧ (n ∉ odict_keys reg →
     odict_keys (Distro_init c n reg).2 = (odict_keys reg ++ [n])%list)
  ∧ (∀ n', n' ≠ n →
       odict_lookup (Distro_init c n reg).2 n' = odict_lookup reg n').
Proof.
  intros [Hnd Hnames]. simpl. split; [split |].
  - by apply odict_keys_set_NoDup.
  - apply Forall_forall. intros kd Hkd.
    apply odict_set_elem in Hkd as [-> | Hkd]; [done |].
    rewrite Forall_forall in Hnames. by apply Hnames.
  - split; [apply odict_keys_set_absent |].
    intros n' Hne. by apply odict_lookup_set_ne.
Qed.

Lemma Distro_init_keeps_registry_witness :
  registry_ok initial_registry
  ∧ odict_keys (Distro_init DebianLike "ubuntu:focal" initial_registry).2
    = ["debian:buster"; "archlinux"; "ubuntu:focal"].
Proof.
  assert (H0 : registry_ok []).
  { split; [apply NoDup_nil_2 | apply Forall_nil_2]. }
  pose proof (Distro_init_keeps_registry [] DebianLike "debian:buster" H0)
    as [H1 _].
  pose proof (Distro_init_keeps_registry _ ArchLinuxLike "archlinux" H1)
    as [H2 _].
  split; [exact H2 |].
  destruct (Distro_init_keeps_registry initial_registry DebianLike
              "ubuntu:focal" H2) as (_ & H & _).
  apply H. compute_done.
Defined.

(** In a registry in order, a lookup that returns gives an instance of the
    name asked for. *)
Theorem Distro_get_name (reg : registry) (n : string) (d : Distro) :
  registry_ok reg → Distro_get reg n = Ok d → name d = n.
Proof.
  intros [_ Hnames]. unfold Distro_get.
  destruct (odict_lookup reg n) as [d'|] eqn:E; [| done]. intros [= <-].
  induction reg as [|[k v] reg IH]; [done |]. simpl in E.
  apply Forall_cons in Hnames as [Hkv Hnames].
  destruct (decide (k = n)) as [<- | Hne]; [by injection E as <- | by apply IH].
Qed.

Lemma Distro_get_name_witness : name archlinux = "archlinux".
Proof.
  apply (Distro_get_name initial_registry "archlinux" archlinux); [| reflexivity].
  split; [compute_done | repeat constructor].
Defined.

(* ===================================================================== *)
(** ** What the context holds *)
(* ===================================================================== *)

Lemma base_context_distro (self : Distro) (kwargs : strdict) :
  base_context self kwargs !! "distro" = Some (VStr (name self))
  ∧ base_context self kwargs !! "distro_slug" = Some (VStr (slugify (name self))).
Proof.
  unfold base_context. destruct (truthy _).
  - by rewrite lookup_insert_ne, lookup_insert_eq, lookup_insert_eq.
  - by rewrite !(lookup_insert_ne _ "tag"), lookup_insert_ne, !lookup_insert_eq.
Qed.

Lemma base_context_keeps (self : Distro) (kwargs : strdict) (k : string) :
  is_Some (kwargs !! k) → is_Some (base_context self kwargs !! k).
Proof.
  intros H. unfold base_context.
  destruct (truthy _); rewrite ?lookup_insert_is_Some'; tauto.
Qed.

(** What the builder of the instance's class returns, key by key, in terms
    of the context of the base class. *)
Lemma get_template_context_lookup (self : Distro) (kwargs context : strdict)
  (k : string) :
  get_template_context self kwargs = Ok context →
  k ∉ ["flag"; "packages"; "client_image"; "toolchain"; "host_image"] →
  ∃ c0, Distro_get_template_context self kwargs = Ok c0
        ∧ context !! k = c0 !! k.
Proof.
  unfold get_template_context, DebianLike_get_template_context,
    ArchLinuxLike_get_template_context.
  intros H Hk.
  destruct (Distro_get_template_context self kwargs) as [c0|] eqn:E0;
    [| by destruct (cls self)].
  exists c0. split; [done |].
  assert (k ≠ "flag" ∧ k ≠ "packages" ∧ k ≠ "client_image" ∧ k ≠ "toolchain"
          ∧ k ≠ "host_image") as (? & ? & ? & ? & ?).
  { repeat split; intros ->; apply Hk; compute_done. }
  destruct (cls self); result_cases H; by rewrite ?lookup_insert_ne by done.
Qed.

(** Every key the caller passed is in the context that the builder
    returns. *)
Lemma get_template_context_keeps (self : Distro) (kwargs context : strdict)
  (k : string) :
  get_template_context self kwargs = Ok context →
  is_Some (kwargs !! k) → is_Some (context !! k).
Proof.
  intros H Hk. apply (base_context_keeps self) in Hk.
  assert (Hc0 : ∀ c0, Distro_get_template_context self kwargs = Ok c0 →
                      is_Some (c0 !! k)).
  { intros c0 E0. rewrite Distro_get_template_context_unfold in E0.
    cbv zeta in E0. result_cases E0;
      rewrite ?lookup_insert_is_Some'; tauto. }
  revert H. unfold get_template_context, DebianLike_get_template_context,
    ArchLinuxLike_get_template_context.
  destruct (Distro_get_template_context self kwargs) as [c0|] eqn:E0;
    [| by destruct (cls self)].
  specialize (Hc0 c0 eq_refl). intros H.
  destruct (cls self); result_cases H;
    rewrite ?lookup_insert_is_Some'; tauto.
Qed.

(** The context always names the distribution: [distro] is the instance's
    name and [distro_slug] its slug, whatever the caller passed under these
    keys; and every key the caller passed is in the context. *)
Theorem get_template_context_names_distro
  (self : Distro) (kwargs context : strdict) :
  get_template_context self kwargs = Ok context →
  context !! "distro" = Some (VStr (name self))
  ∧ context !! "distro_slug" = Some (VStr (slugify (name self)))
  ∧ ∀ k, is_Some (kwargs !! k) → is_Some (context !! k).
Proof.
  intros H.
  destruct (base_context_distro self kwargs) as [Hd Hs].
  split; [| split].
  - destruct (get_template_context_lookup _ _ _ "distro" H) as (c0 & E0 & ->);
      [compute_done |].
    by rewrite (Distro_get_template_context_lookup _ _ _ "distro" E0).
  - destruct (get_template_context_lookup _ _ _ "distro_slug" H) as (c0 & E0 & ->);
      [compute_done |].
    by rewrite (Distro_get_template_context_lookup _ _ _ "distro_slug" E0).
  - intros k. by apply (get_template_context_keeps self kwargs).
Qed.

Lemma get_template_context_names_distro_witness :
  ∃ context,
    get_template_context archlinux {["distro" := VStr "gentoo"]} = Ok context
    ∧ context !! "distro" = Some (VStr "archlinux").
Proof.
  destruct (get_template_context_Ok archlinux {["distro" := VStr "gentoo"]})
    as [context E]; [vm_compute; reflexivity |].
  exists context. split; [exact E |].
  apply (get_template_context_names_distro archlinux _ context E).
Defined.

(** With a non-empty client architecture, the context that the builder
    returns binds [host_port] to the architecture's port. *)
Theorem get_template_context_host_port
  (self : Distro) (kwargs context : strdict) (c : string) :
  get_template_context self kwargs = Ok context →
  kwargs !! "client_arch" = Some (VStr c) → c ≠ "" →
  ∃ port, ports_by_arch (cls self) !! c = Some port
          ∧ context !! "host_port" = Some (VInt port).
Proof.
  intros H Hc Hne.
  destruct (get_template_context_lookup _ _ _ "host_port" H) as (c0 & E0 & ->);
    [compute_done |].
  rewrite Distro_get_template_context_unfold in E0. cbv zeta in E0.
  rewrite !dict_get_base_context in E0 by done.
  assert (Eg : dict_get kwargs "client_arch" = VStr c)
    by (unfold dict_get; by rewrite Hc).
  rewrite Eg in E0. apply truthy_VStr in Hne. rewrite Hne in E0.
  unfold getitem in E0.
  destruct (ports_by_arch (cls self) !! c) as [port|]; [| done].
  exists port. split; [done |]. simpl in E0.
  result_cases E0; by rewrite ?lookup_insert_ne, ?lookup_insert_eq by done.
Qed.

Lemma get_template_context_host_port_witness :
  ∃ context,
    get_template_context archlinux {["client_arch" := VStr "arm32v6"]} = Ok context
    ∧ context !! "host_port" = Some (VInt 3706).
Proof.
  destruct (get_template_context_Ok archlinux {["client_arch" := VStr "arm32v6"]})
    as [context E]; [vm_compute; reflexivity |].
  exists context. split; [exact E |].
  destruct (get_template_context_host_port archlinux _ context "arm32v6" E)
    as (port & Hp & ->); [apply lookup_singleton_eq | done |].
  vm_compute in Hp. by injection Hp as <-.
Defined.

(* ===================================================================== *)
(** ** More on formatting *)
(* ===================================================================== *)

(** Text without braces is its own formatting, whatever the context. *)
Theorem str_format_literal (s : string) (context : strdict) :
  string_forall not_brace s = true → str_format s context = Ok s.
Proof.
  unfold str_format. induction s as [|c s IH]; [done |]. simpl.
  intros H. apply andb_true_iff in H as [Hc Hs]. unfold not_brace in Hc.
  apply negb_true_iff, orb_false_iff in Hc as [-> ->]. by rewrite IH.
Qed.

Lemma str_format_literal_witness :
  str_format "FROM debian:buster" ∅ = Ok "FROM debian:buster".
Proof. apply str_format_literal. reflexivity. Defined.

Lemma fmap_Raise {A B} (f : A → B) (r : result A) (e : exn) :
  f <$> r = Raise e → r = Raise e.
Proof. destruct r; [done | by intros [= ->]]. Qed.

Lemma get_field_KeyError (n : string) (context : strdict) (key : value) :
  get_field n context = Raise (KeyError key) →
  key = VStr n ∧ context !! n = None.
Proof.
  unfold get_field. destruct (get_integer 0 n); [| done..].
  destruct (context !! n); [done | by intros [= <-]].
Qed.

Lemma format_go_KeyError (s : string) (st : scan_state) (context : strdict)
  (key : value) :
  format_go st s context = Raise (KeyError key) →
  ∃ n, key = VStr n ∧ n ∈ fields_go st s ∧ context !! n = None.
Proof.
  revert st.
  assert (Hfield : ∀ n r,
    (format_go InText r context = Raise (KeyError key) →
     ∃ n', key = VStr n' ∧ n' ∈ fields_go InText r ∧ context !! n' = None) →
    (v ← get_field n context;
     String.app (str_of v) <$> format_go InText r context) = Raise (KeyError key) →
    ∃ n', key = VStr n' ∧ n' ∈ n :: fields_go InText r ∧ context !! n' = None).
  { intros n r IH H. destruct (get_field n context) as [v|e] eqn:E; simpl in H.
    - apply fmap_Raise in H. destruct (IH H) as (n' & -> & Hin & Hn).
      exists n'. split; [done |]. split; [by right | done].
    - injection H as ->. apply get_field_KeyError in E as [-> E].
      exists n. split; [done |]. split; [by left | done]. }
  induction s as [|c r IH]; intros st H.
  - by destruct st.
  - destruct st as [| |n|]; simpl in *.
    + destruct (Ascii.eqb c "{"); [by apply IH |].
      destruct (Ascii.eqb c "}"); [by apply IH |].
      apply fmap_Raise in H. by apply IH.
    + destruct (Ascii.eqb c "{"); [apply fmap_Raise in H; by apply IH |].
      destruct (Ascii.eqb c "}"); [done |].
      destruct (field_step "" c) as [st'|e] eqn:E; [by apply IH |].
      unfold field_step in E. destruct (Ascii.eqb c "{"); [congruence |].
      destruct (unmodelled_field_char c); congruence.
    + destruct (Ascii.eqb c "}"); [by apply Hfield; [apply IH |] |].
      destruct (field_step n c) as [st'|e] eqn:E; [by apply IH |].
      unfold field_step in E. destruct (Ascii.eqb c "{"); [congruence |].
      destruct (unmodelled_field_char c); congruence.
    + destruct (Ascii.eqb c "}"); [apply fmap_Raise in H; by apply IH | done].
Qed.

(** On a template of plain replacement fields, a [KeyError] of the
    formatting names a placeholder of the template that the context does not
    bind. *)
Theorem str_format_KeyError (template : string) (context : strdict)
  (key : value) :
  plain template = true →
  str_format template context = Raise (KeyError key) →
  ∃ n, key = VStr n ∧ n ∈ placeholders template ∧ context !! n = None.
Proof. intros _. apply format_go_KeyError. Qed.

Lemma str_format_KeyError_witness :
  ∃ n, VStr "tag" = VStr n ∧ n ∈ placeholders "image:{tag}" ∧ (∅ : strdict) !! n = None.
Proof. apply (str_format_KeyError "image:{tag}" ∅); reflexivity. Defined.

(* ===================================================================== *)
(** ** More on [render] *)
(* ===================================================================== *)

Lemma mkdir_stdout (p : string) (w : world) : stdout (mkdir p w).1 = stdout w.
Proof.
  unfold mkdir. destruct (decide (p = "")); [done |].
  destruct (files w !! p); [done |]. by destruct (check_parent (files w) p).
Qed.

Lemma makedirs_fuel_stdout (fuel : nat) (name : string) (w : world) :
  stdout (makedirs_fuel fuel name w).1 = stdout w.
Proof.
  revert name w. induction fuel as [|fuel IH]; intros name w; [done |].
  simpl. destruct (path_split name) as [head tail].
  destruct (if decide (tail = "") then path_split head else (head, tail))
    as [head' tail'].
  destruct (decide (head' ≠ "" ∧ tail' ≠ "")); [| apply mkdir_stdout].
  unfold mbind, io_bind, path_exists. simpl.
  destruct (bool_decide _); [apply mkdir_stdout |].
  unfold except_FileExistsError_pass.
  pose proof (IH head' w) as Hs.
  destruct (makedirs_fuel fuel head' w) as [w1 [[]|e]]; simpl in *.
  - destruct (decide (tail' = ".")); [done |]. by rewrite mkdir_stdout.
  - destruct e; try done.
    destruct (decide (tail' = ".")); [done |]. by rewrite mkdir_stdout.
Qed.

(** A [render] to an output path in normal form that returns has formatted
    the template into the output file, has touched no other entry except for
    adding directories where there was nothing, and has printed one line. *)
Theorem render_frame (template out : string) (context : strdict)
  (w w' : world) (r : string) :
  normal_path out = true →
  render template out context w = (w', Ok r) →
  (∃ text rendered,
     stat (files w) template = Some (File text)
     ∧ str_format text context = Ok rendered
     ∧ files w' !! out = Some (File rendered))
  ∧ (∀ p, p ≠ out →
          files w' !! p = files w !! p
          ∨ (files w !! p = None ∧ files w' !! p = Some Directory))
  ∧ stdout w' = (stdout w ++ ["Wrote " +:+ out])%list.
Proof.
  intros _ H. pose proof H as H'.
  apply render_Ok in H'
    as (text & rendered & fs1 & Hst & Hfmt & Hg & Hf & Hnd & Hd & Hdir).
  split; [| split].
  - exists text, rendered. rewrite Hf. by rewrite lookup_insert_eq.
  - intros p Hp. rewrite Hf, lookup_insert_ne by done. apply Hg.
  - unfold render in H.
    apply io_bind_Ok in H as (w1 & ? & Hread & H).
    apply io_bind_Ok in H as (w2 & ? & Hl & H).
    apply io_bind_Ok in H as (w3 & e & Hex & H).
    apply io_bind_Ok in H as (w4 & [] & Hmk & H).
    apply io_bind_Ok in H as (w5 & [] & Hwr & H).
    apply io_bind_Ok in H as (w6 & [] & Hpr & H).
    unfold read_file in Hread.
    destruct (stat (files w) template) as [[|]|]; try done.
    injection Hread as <- _. injection Hl as <- _. injection Hex as <- _.
    apply write_file_Ok in Hwr as (_ & _ & _ & ->).
    injection Hpr as <-. injection H as <- _. simpl. f_equal.
    destruct e; [by injection Hmk as <- |].
    pose proof (makedirs_fuel_stdout (S (String.length (dirname out)))
                  (dirname out) w) as Hs.
    unfold makedirs in Hmk. by rewrite Hmk in Hs.
Qed.

Lemma render_frame_witness :
  ∃ w', render "debian-like/docker-compose.template.yml" "out/compose.yml"
          {["distro_slug" := VStr "s"; "tag" := VStr "t"; "host_arch" := VStr "h";
            "host_port" := VInt 1]} debian_project = (w', Ok "out/compose.yml")
        ∧ files w' !! "debian-like" = Some Directory
        ∧ stdout w' = ["Wrote out/compose.yml"].
Proof.
  destruct (render "debian-like/docker-compose.template.yml" "out/compose.yml"
              {["distro_slug" := VStr "s"; "tag" := VStr "t";
                "host_arch" := VStr "h"; "host_port" := VInt 1]} debian_project)
    as [w' [r|e]] eqn:E.
  - pose proof (render_returns_out _ _ _ _ _ _ E) as ->.
    exists w'. split; [done |].
    destruct (render_frame _ "out/compose.yml" _ _ _ _ eq_refl E)
      as (_ & Hfr & Hout).
    split; [| exact Hout].
    destruct (Hfr "debian-like") as [-> | [Hn _]]; [done | reflexivity |].
    vm_compute in Hn. discriminate Hn.
  - exfalso.
    assert (H : is_ok (render "debian-like/docker-compose.template.yml"
                         "out/compose.yml"
                         {["distro_slug" := VStr "s"; "tag" := VStr "t";
                           "host_arch" := VStr "h"; "host_port" := VInt 1]}
                         debian_project).2 = true) by (vm_compute; reflexivity).
    rewrite E in H. discriminate H.
Defined.

Lemma render_Ok_settled (template out : string) (context : strdict)
  (w w' : world) (r : string) :
  render template out context w = (w', Ok r) → out ≠ template →
  settled (files w') (template, out, context).
Proof.
  intros H Hne.
  assert (Hj : run_job (template, out, context) w = (w', Ok tt)).
  { unfold run_job, mbind, io_bind. simpl. by rewrite H. }
  apply run_job_written in Hj as [_ Hs]. by apply Hs.
Qed.

(** Rendering again what was just rendered, to an output path in normal
    form, returns and changes no file, unless the output is the template
    itself. *)
Theorem render_idempotent (template out : string) (context : strdict)
  (w w1 : world) (r : string) :
  normal_path out = true →
  render template out context w = (w1, Ok r) → out ≠ template →
  ∃ w2, render template out context w1 = (w2, Ok out)
        ∧ files w2 = files w1.
Proof.
  intros _ H Hne. apply render_Ok_settled in H; [| done].
  rewrite (render_settled _ _ _ _ H). by eexists.
Qed.

(** An output path without a directory part makes [render] raise, even when
    the template formats: [os.path.exists('')] is false and
    [os.makedirs('')] raises.  Nothing is written. *)
Theorem render_bare_name_raises (template out : string) (context : strdict)
  (w : world) (text rendered : string) :
  dirname out = "" →
  stat (files w) template = Some (File text) →
  str_format text context = Ok rendered →
  render template out context w = (w, Raise (FileNotFoundError "")).
Proof.
  intros Hd Hst Hfmt. rewrite (render_unfold _ _ _ _ _ Hst), Hfmt, Hd.
  reflexivity.
Qed.

Lemma render_bare_name_raises_witness :
  render "debian-like/docker-compose.template.yml" "compose.yml"
    {["distro_slug" := VStr "s"; "tag" := VStr "t"; "host_arch" := VStr "h";
      "host_port" := VInt 1]} debian_project
  = (debian_project, Raise (FileNotFoundError "")).
Proof.
  assert (H : is_ok (str_format
                       "image: host-{distro_slug}:{tag}-{host_arch} ports: {host_port}:{host_port} env: ${{HOME}}"
                       {["distro_slug" := VStr "s"; "tag" := VStr "t";
                         "host_arch" := VStr "h"; "host_port" := VInt 1]}) = true)
    by (vm_compute; reflexivity).
  apply is_ok_true in H as [rendered H].
  apply (render_bare_name_raises _ _ _ _
           "image: host-{distro_slug}:{tag}-{host_arch} ports: {host_port}:{host_port} env: ${{HOME}}"
           rendered); [reflexivity | vm_compute; reflexivity | exact H].
Defined.

Lemma render_idempotent_witness :
  ∃ w1 w2,
    render "debian-like/docker-compose.template.yml" "out/compose.yml"
      {["distro_slug" := VStr "s"; "tag" := VStr "t"; "host_arch" := VStr "h";
        "host_port" := VInt 1]} debian_project = (w1, Ok "out/compose.yml")
    ∧ render "debian-like/docker-compose.template.yml" "out/compose.yml"
        {["distro_slug" := VStr "s"; "tag" := VStr "t"; "host_arch" := VStr "h";
          "host_port" := VInt 1]} w1 = (w2, Ok "out/compose.yml")
    ∧ files w2 = files w1.
Proof.
  destruct (render "debian-like/docker-compose.template.yml" "out/compose.yml"
              {["distro_slug" := VStr "s"; "tag" := VStr "t";
                "host_arch" := VStr "h"; "host_port" := VInt 1]} debian_project)
    as [w1 [r|e]] eqn:E.
  - pose proof (render_returns_out _ _ _ _ _ _ E) as ->.
    destruct (render_idempotent _ "out/compose.yml" _ _ _ _ eq_refl E)
      as (w2 & E2 & Hf);
      [discriminate |].
    exists w1, w2. split; [reflexivity |]. split; [exact E2 | exact Hf].
  - exfalso.
    assert (H : is_ok (render "debian-like/docker-compose.template.yml"
                         "out/compose.yml"
                         {["distro_slug" := VStr "s"; "tag" := VStr "t";
                           "host_arch" := VStr "h"; "host_port" := VInt 1]}
                         debian_project).2 = true) by (vm_compute; reflexivity).
    rewrite E in H. discriminate H.
Defined.

(* ===================================================================== *)
(** ** Keyword arguments that collide *)
(* ===================================================================== *)

Lemma foldl_call_kw_Raise (e : exn) (explicit : list (string * value)) :
  foldl (λ acc kv, kw ← acc; call_kw kv.1 kv.2 kw) (Raise e) explicit = Raise e.
Proof. induction explicit as [|kv l IH]; [done | simpl; apply IH]. Qed.

(** A call that names a keyword which [kwargs] binds already is refused
    with [TypeError]. *)
Lemma kw_context_collision (self : Distro) (explicit : list (string * value))
  (kwargs : strdict) (k : string) :
  k ∈ explicit.*1 → is_Some (kwargs !! k) →
  ∃ msg, kw_context self explicit kwargs = Raise (TypeError msg).
Proof.
  unfold kw_context. revert kwargs.
  induction explicit as [|[k0 v0] l IH]; intros kwargs Hin Hk.
  - by apply elem_of_nil in Hin.
  - simpl. unfold call_kw at 2.
    destruct (kwargs !! k0) as [v|] eqn:E0.
    + rewrite foldl_call_kw_Raise. by eexists.
    + rewrite fmap_cons in Hin. apply elem_of_cons in Hin as [-> | Hin].
      * simpl in Hk. rewrite E0 in Hk. by destruct Hk.
      * apply IH; [done |]. rewrite lookup_insert_is_Some'. by right.
Qed.

Lemma host_archs_cons (c : family) : ∃ h l, host_archs c = h :: l.
Proof. destruct c; by eexists _, _. Qed.

Lemma client_archs_cons (c : family) : ∃ a l, client_archs c = a :: l.
Proof. destruct c; by eexists _, _. Qed.

Lemma Distro_render_dockerfile_host_collision
  (self : Distro) (kwargs : strdict) (w : world) :
  is_Some (kwargs !! "host_arch") →
  ∃ msg, Distro_render_dockerfile_host self kwargs w = (w, Raise (TypeError msg)).
Proof.
  intros Hk. unfold Distro_render_dockerfile_host.
  destruct (host_archs_cons (cls self)) as (h & l & ->). simpl.
  destruct (kw_context_collision self [("host_arch", VStr h)] kwargs "host_arch")
    as [msg E]; [compute_done | done |].
  exists msg. unfold context_for, lift, mbind, io_bind. by rewrite E.
Qed.

Lemma Distro_render_dockerfile_client_collision
  (self : Distro) (kwargs : strdict) (w : world) :
  is_Some (kwargs !! "client_arch") →
  ∃ msg, Distro_render_dockerfile_client self kwargs w = (w, Raise (TypeError msg)).
Proof.
  intros Hk. unfold Distro_render_dockerfile_client.
  destruct (client_archs_cons (cls self)) as (a & l & ->). simpl.
  destruct (kw_context_collision self [("client_arch", VStr a)] kwargs "client_arch")
    as [msg E]; [compute_done | done |].
  exists msg. unfold context_for, lift, mbind, io_bind. by rewrite E.
Qed.

Lemma self_render_unfold (self : Distro) (kwargs : strdict) (w : world) :
  self_render self kwargs w =
  (Distro_render_dockerfile_host self kwargs;;
   Distro_render_dockerfile_client self kwargs;;
   Distro_render_docker_compose self kwargs;;
   match cls self with
   | DebianLike => DebianLike_render_initd_distccd self kwargs
   | ArchLinuxLike => ArchLinuxLike_render_systemd_distccd self kwargs
   end) w.
Proof.
  unfold self_render, DebianLike_render, ArchLinuxLike_render, Distro_render,
    mbind, io_bind.
  destruct (cls self);
    destruct (Distro_render_dockerfile_host self kwargs w) as [w1 [[]|e]]; try done;
    by destruct (Distro_render_dockerfile_client self kwargs w1) as [w2 [[]|e]].
Qed.

(** [self.render] cannot be given an architecture: with [host_arch] among
    its keyword arguments it raises [TypeError] at once and writes nothing;
    with [client_arch] among them it never returns. *)
Theorem self_render_kwargs_collision
  (self : Distro) (kwargs : strdict) (w : world) :
  (is_Some (kwargs !! "host_arch") →
   ∃ msg, self_render self kwargs w = (w, Raise (TypeError msg)))
  ∧ (is_Some (kwargs !! "client_arch") →
     ∃ w' e, self_render self kwargs w = (w', Raise e)).
Proof.
  rewrite self_render_unfold. split; intros Hk.
  - destruct (Distro_render_dockerfile_host_collision self kwargs w Hk) as [msg E].
    exists msg. by apply io_bind_raise.
  - unfold mbind at 1. unfold io_bind.
    destruct (Distro_render_dockerfile_host self kwargs w) as [w1 [[]|e]];
      [| by exists w1, e].
    destruct (Distro_render_dockerfile_client_collision self kwargs w1 Hk)
      as [msg E].
    exists w1, (TypeError msg). by apply io_bind_raise.
Qed.

Lemma self_render_kwargs_collision_witness :
  ∃ msg, self_render debian_buster {["host_arch" := VStr "amd64"]} debian_project
         = (debian_project, Raise (TypeError msg)).
Proof.
  apply (proj1 (self_render_kwargs_collision debian_buster
                  {["host_arch" := VStr "amd64"]} debian_project)).
  rewrite lookup_singleton_eq. by eexists.
Defined.


(* ===================================================================== *)
(** ** [build_client] *)
(* ===================================================================== *)


(* ===================================================================== *)
(** ** More on cleaning *)
(* ===================================================================== *)

(** What [clean] leaves when it returns. *)
Lemma clean_Ok (self : Distro) (w w' : world) :
  clean self w = (w', Ok tt) →
  stat (files w) (out_path self) = Some Directory
  ∧ files w'
    = filter (λ '(p, _), p ≠ out_path self ∧ below (out_path self) p = false)
        (files w)
  ∧ stdout w' = (stdout w ++ ["Removed " +:+ out_path self])%list.
Proof.
  unfold clean, rmtree, mbind, io_bind.
  destruct (stat (files w) (out_path self)) as [[|]|]; try done.
  by intros [= <-].
Qed.

(** [clean] is not repeatable: right after a [clean] that returned, the
    next one raises [FileNotFoundError]. *)
Theorem clean_twice (self : Distro) (w w' : world) :
  clean self w = (w', Ok tt) →
  clean self w' = (w', Raise (FileNotFoundError (out_path self))).
Proof.
  intros H. apply clean_Ok in H as (_ & Hf & _).
  unfold clean, rmtree, mbind, io_bind.
  assert (E : stat (files w') (out_path self) = None).
  { unfold stat. destruct (decide (out_path self = "")); [done |].
    rewrite Hf. apply map_lookup_filter_None. right. by intros nd _ [? _]. }
  by rewrite E.
Qed.

Lemma clean_twice_witness :
  ∃ w',
    clean debian_buster
      (mkWorld (list_to_map [("debian-buster", Directory)]) []) = (w', Ok tt)
    ∧ clean debian_buster w' = (w', Raise (FileNotFoundError "debian-buster")).
Proof.
  destruct (clean debian_buster
              (mkWorld (list_to_map [("debian-buster", Directory)]) []))
    as [w' [[]|e]] eqn:E.
  - exists w'. split; [reflexivity |].
    exact (clean_twice debian_buster _ w' E).
  - exfalso. vm_compute in E. discriminate E.
Defined.

(** [clean_all] stops at the first distribution whose output directory is
    missing: it raises for it and removes nothing, whatever the later
    distributions have. *)
Theorem clean_all_first_missing
  (n : string) (d : Distro) (reg : registry) (w : world) :
  stat (files w) (out_path d) = None →
  clean_all ((n, d) :: reg) w = (w, Raise (FileNotFoundError (out_path d))).
Proof.
  intros H. unfold clean_all, odict_values. simpl.
  unfold clean, rmtree, mbind, io_bind. by rewrite H.
Qed.

Lemma clean_all_first_missing_witness :
  main initial_registry clean_cmd
    (mkWorld (list_to_map [("archlinux", Directory)]) [])
  = (mkWorld (list_to_map [("archlinux", Directory)]) [],
     Raise (FileNotFoundError "debian-buster")).
Proof.
  apply (clean_all_first_missing "debian:buster" debian_buster
           [("archlinux", archlinux)]).
  vm_compute. reflexivity.
Defined.

(* ===================================================================== *)
(** ** Rendering and then cleaning [debian:buster] *)
(* ===================================================================== *)




Lemma debian_buster_render_idempotent_witness :
  ∃ w1 w2,
    main initial_registry (render_cmd "debian:buster" (Some "v1")) debian_project
    = (w1, Ok tt)
    ∧ main initial_registry (render_cmd "debian:buster" (Some "v1")) w1
      = (w2, Ok tt)
    ∧ files w2 = files w1.
Proof.
  destruct debian_project_renders as [w1 E].
  destruct (debian_buster_render_idempotent (Some "v1") debian_project w1 E)
    as (w2 & E2 & Hf).
  exists w1, w2. split; [exact E |]. split; [exact E2 | exact Hf].
Defined.

(* ===================================================================== *)
(** ** The contexts of the render loops *)
(* ===================================================================== *)

(** For a tag alone, as the command line passes it, the contexts that the
    loops of [self.render] ask for are all built: for every host
    architecture, every client architecture and every pair of the
    distribution's lists; and the compilers of a host architecture are
    client architectures. *)
Theorem kw_context_registered
  (self : Distro) (tag : option string) (h c : string) :
  h ∈ host_archs (cls self) → c ∈ client_archs (cls self) →
  (∃ context, kw_context self [("host_arch", VStr h)] (tag_argument tag)
              = Ok context)
  ∧ (∃ context, kw_context self [("client_arch", VStr c)] (tag_argument tag)
                = Ok context)
  ∧ (∃ context,
       kw_context self [("host_arch", VStr h); ("client_arch", VStr c)]
         (tag_argument tag) = Ok context)
  ∧ ∃ compilers,
      compilers_by_host_arch (cls self) !! h = Some compilers
      ∧ compilers ⊆ client_archs (cls self).
Proof.
  intros Hh Hc.
  assert (Hkh := tag_argument_lookup_ne tag "host_arch" ltac:(done)).
  assert (Hkc := tag_argument_lookup_ne tag "client_arch" ltac:(done)).
  destruct self as [[] n]; simpl in Hh, Hc; list_cases Hh; list_cases Hc.
  all: split; [apply kw_context_host; [done | done | vm_compute; reflexivity] |].
  all: split; [apply kw_context_client; [done | done | vm_compute; reflexivity] |].
  all: split; [apply kw_context_both; [done | done | vm_compute; reflexivity] |].
  all: eexists; split; [reflexivity |].
  all: intros x Hx; list_cases Hx; compute_done.
Qed.

Lemma kw_context_registered_witness :
  ∃ context,
    kw_context archlinux [("host_arch", VStr "amd64"); ("client_arch", VStr "arm32v5")]
      (tag_argument None) = Ok context.
Proof.
  apply (kw_context_registered archlinux None "amd64" "arm32v5"); compute_done.
Defined.

(* ===================================================================== *)
(** ** [build_all] *)
(* ===================================================================== *)

(** [self.render] with [client_arch] among its keyword arguments raises. *)
Lemma self_render_client_arch_raises
  (self : Distro) (kwargs : strdict) (w : world) :
  is_Some (kwargs !! "client_arch") →
  ∃ w' e, self_render self kwargs w = (w', Raise e).
Proof.
  intros Hk. rewrite self_render_unfold. unfold mbind at 1. unfold io_bind.
  destruct (Distro_render_dockerfile_host self kwargs w) as [w1 [[]|e]];
    [| by exists w1, e].
  destruct (Distro_render_dockerfile_client_collision self kwargs w1 Hk)
    as [msg E].
  exists w1, (TypeError msg). by apply io_bind_raise.
Qed.

(** The context that [build_client] asks for holds [client_arch]. *)
Lemma build_client_context (self : Distro) (client_arch : string)
  (kwargs context : strdict) :
  kw_context self [("client_arch", VStr client_arch)] kwargs = Ok context →
  is_Some (context !! "client_arch").
Proof.
  unfold kw_context. simpl. unfold call_kw.
  destruct (kwargs !! "client_arch"); [done |]. simpl. intros E.
  apply (get_template_context_keeps self _ context "client_arch" E).
  rewrite lookup_insert_eq. by eexists.
Qed.

(** [build_all] never gets through a registry that is not empty: in its
    first distribution the host images may be built, and then the first
    [build_client] raises.  So does [build-all], whatever the engine does. *)
Theorem build_all_never_returns
  (configure_qemu : io unit) (docker : list string → io unit)
  (is_E1 : exn → bool) (reg : registry) (tag : value) (w : world) :
  reg ≠ [] →
  ∃ w' e, build_all configure_qemu docker is_E1 reg tag w = (w', Raise e).
Proof.
  destruct reg as [|[n d] rest]; [done |]. intros _.
  unfold build_all, odict_values. simpl.
  assert (Hclient : ∀ w1, ∃ w' e,
    for_each (client_archs (cls d))
      (λ client_arch,
         build_client configure_qemu docker is_E1 d client_arch {["tag" := tag]})
      w1 = (w', Raise e)).
  { intros w1. destruct (client_archs_cons (cls d)) as (a & l & ->). simpl.
    assert (Hb : ∃ w' e,
      build_client configure_qemu docker is_E1 d a {["tag" := tag]} w1
      = (w', Raise e)).
    { unfold build_client. apply io_bind_always_raises. intros [] w2.
      unfold mbind at 1. unfold io_bind, context_for, lift.
      destruct (kw_context d [("client_arch", VStr a)] {["tag" := tag]})
        as [context|e] eqn:E; [| by exists w2, e].
      apply build_client_context in E.
      destruct (self_render_client_arch_raises d context w2 E) as (w' & e & Hr).
      exists w', e. by apply io_bind_raise. }
    destruct Hb as (w' & e & Hb). exists w', e. by apply io_bind_raise. }
  assert (Hd : ∃ w' e,
    (for_each (host_archs (cls d))
       (λ host_arch,
          build_host configure_qemu docker is_E1 d host_arch {["tag" := tag]});;
     for_each (client_archs (cls d))
       (λ client_arch,
          build_client configure_qemu docker is_E1 d client_arch {["tag" := tag]}))
      w = (w', Raise e)).
  { apply io_bind_always_raises. intros [] w1. apply Hclient. }
  destruct Hd as (w' & e & Hd). exists w', e. by apply io_bind_raise.
Qed.

Lemma build_all_never_returns_witness :
  ∃ w' e,
    build_all (mret tt) (λ _, mret tt) (λ _, false) initial_registry
      (VStr "v1") debian_project
    = (w', Raise e).
Proof.
  apply (build_all_never_returns (mret tt) (λ _, mret tt) (λ _, false)
           initial_registry (VStr "v1") debian_project).
  discriminate.
Defined.

(* ===================================================================== *)
(** ** [render-all] *)
(* ===================================================================== *)

(** [self.render] of [archlinux] raises, whatever it is given. *)
Lemma self_render_archlinux_raises (kwargs : strdict) (w : world) :
  ∃ w' e, self_render archlinux kwargs w = (w', Raise e).
Proof.
  change (self_render archlinux kwargs w)
    with (ArchLinuxLike_render archlinux kwargs w).
  unfold ArchLinuxLike_render, ArchLinuxLike_render_systemd_distccd.
  revert w. apply io_bind_always_raises. intros _ w1.
  apply io_bind_always_raises. intros _ w2.
  apply copy_build_contexts_raises.
Qed.

(** [render-all] never returns on the registry of the module: whatever the
    tag and the files, [debian:buster] is rendered or raises, and then
    [archlinux] raises. *)
Theorem render_all_never_returns (tag : option string) (w : world) :
  ∃ w' e, main initial_registry (render_all tag) w = (w', Raise e).
Proof.
  change (main initial_registry (render_all tag) w)
    with ((self_render debian_buster (tag_argument tag);;
           self_render archlinux (tag_argument tag);; mret tt) w).
  revert w. apply io_bind_always_raises. intros _ w1.
  destruct (self_render_archlinux_raises (tag_argument tag) w1) as (w' & e & E).
  exists w', e. by apply io_bind_raise.
Qed.
